(* ===== verification/_CoqProject ===== *)
-Q . S2P
Prelude.v
JsString.v
JsObject.v
Shim.v
Entries.v
Chunker.v
Pipeline.v
Alias.v
Loaders.v
Writer.v
Graph.v
Provide.v
Bundle.v
