(* ===== verification/Prelude.v ===== *)
(** * A verification library for the javascript-bundles build of overview-server

    The program verified here is [src/web/webpack.config.js], the webpack
    configuration that compiles the browser entry points of the Play web
    application into cache-busted, minified, source-mapped bundles, and the
    small emit plugin it declares, [RedirectPlayFrameworkUsingDummyMd5Files],
    which bridges webpack's hash-in-filename naming to the lookup convention of
    Play's [AssetsFinder] ("read [X.js.md5], serve [<md5>-X.js]").

    ** The program's parts and how they interact

    The configuration is data consumed by webpack, plus one plugin of its own.
    A build runs, in this order:
    - the entry registry: the array [entryPoints] (lines 8-24) is turned into
      the object [entryPointsMap] (lines 92-95) whose keys are the entry names
      with every ["/"] replaced by ["-"] and whose values are
      ["bundle/" + entry];
    - module resolution: [resolve.alias] (lines 158-187), [resolve.modules]
      and [resolve.extensions] (lines 155-157);
    - the loader chains: [module.loaders] (lines 119-144) with
      [UglifyESOptions] (lines 97-101);
    - chunk emission with the file-name templates of [output]
      (lines 107-117): ["[chunkhash]-[name].js"], ["[file].map"],
      ["[chunkhash].chunk.js"];
    - the emit hook of [RedirectPlayFrameworkUsingDummyMd5Files]
      (lines 61-90): for each emitted asset whose basename matches
      [/^([a-f0-9]+)-(.*\.js)$/] it adds an asset ["<basename>.md5"] holding
      the hash;
    - the writing of the assets into [output.path] (line 108), then, on
      webpack's [done] hook, [WebpackCleanupPlugin] (line 146), which
      removes the files of that directory the build did not emit.

    ** Files, Modules and what they model

    - [Prelude] (this file): the build-error type of specification section 7,
      its result monad ([let!] in [webpack_scope]) and [result_map] (a
      monadic map whose first failure aborts), the string and list lemmas
      every component uses, the hint databases [webpack] and [webpack_str]
      and the development's tactics.
    - [JsString] (Module [JsString]): the JavaScript string built-ins the
      source calls: [String.prototype.split] with a one-character
      separator, the basename taken as the last part
      ([pathParts[pathParts.length - 1]], line 68), [replace(/\//g, '-')]
      (line 94), and the regular expression of line 70 as an executable
      matcher [match_hashed].
    - [JsObject] (Module [JsObject]): a JavaScript object used as a
      dictionary, as an insertion-ordered association list: property read,
      property assignment (overwrite in place or append a new key),
      [for ... in] key order; well-formedness (no duplicate key).
    - [Shim] (Module [Shim]): the plugin of lines 61-90 step by step: the
      collecting loop over [compilation.assets] (lines 64-79) as
      [collect_fake_md5], the insertion loop (lines 81-86) as
      [add_fake_md5], the whole emit hook as [redirect_emit].
    - [Entries] (Module [Entries]): [entryPoints] (lines 8-24) and the
      construction of [entryPointsMap] (lines 92-95).
    - [Chunker] (Module [Chunker]): the [output] templates (lines 107-117)
      as segment lists with [render]; the interface [ChunkHash] (a class:
      webpack's content hash, promised to be non-empty lower-case
      hexadecimal); the emission of one script and one source map per chunk
      with webpack's collision check ([emit_assets]).
    - [Pipeline] (Module [Pipeline]): the emission and the emit hook for the
      entries of [entryPointsMap], with each entry's bundle a parameter
      ([build]), and Play's [AssetsFinder] lookup as the comment of lines
      42-44 describes it, over any reader of [.md5] files
      ([play_versioned_path], [play_serve]).
    - [Alias] (Module [Alias]): [resolve.alias] (lines 158-187) in source
      order, webpack's alias rule (whole name or a prefix followed by
      ["/"], first match wins, no re-aliasing into the alias's own
      target), and resolution of a request against [resolve.modules] and
      [resolve.extensions] (lines 155-157) over a file set ([gset]):
      next to the importer for a relative request, otherwise in each
      directory of [resolve.modules] from the importer's directory up to
      [context]; each path as is, then with each extension.  Directory
      requests ([index.js], [package.json]'s [main]) are not modelled:
      section 4.1 of the specification does not describe them.
    - [Loaders] (Module [Loaders]): the two rules of [module.loaders]
      (lines 119-144) with [UglifyESOptions] (lines 97-101), selection by
      file extension, right-to-left chaining; the loaders are an interface
      [Transforms] (a class) since the compilers are not part of the code.
    - [Writer] (Module [Writer]): the flat writing into [output.path]
      (line 108), then [WebpackCleanupPlugin] (line 146) when the writing
      succeeded, over a directory as a [gmap], with the file system's
      refusals as a parameter.
    - [Graph] (Module [Graph]): the dependency graph builder of
      specification section 4.3: the entry modules resolved from
      [context] (lines 104-105), then a work list of modules guarded by the
      visited ones, each visit resolving the module's imports with [Alias];
      the imports of a module are a parameter (parsing is opaque).  The
      abstract graph is the relation [edge] and its reflexive-transitive
      closure ([rtc], [reachable]); the invariant of the traversal is the
      record [trav_inv].
    - [Provide] (Module [Provide]): [webpack.ProvidePlugin] (lines
      147-151): every module using [$], [jQuery] or [window.jQuery] free
      gets an implicit import of ["jquery"], fed to [Graph].
    - [Bundle] (Module [Bundle]): the whole run: for each entry its graph,
      the transform of each of its modules, their serialization (the
      interface [Serializer]) into the entry's chunk, emission, the emit
      hook, and the writer ([compile], [run]); and Play's lookup reading
      the output directory ([play_serve_dir]).  A failed compilation
      writes nothing, as section 7 of the specification says; webpack
      itself, with no [NoEmitOnErrorsPlugin] in the configuration, may
      still emit (a finding of the manifest).

    The plugin, the entry map and the configuration data are translated
    from the source; webpack's own behaviour (template rendering, emission,
    module traversal, alias resolution, loader chaining, cleanup and
    writing) is modelled from the specification and marked so in the
    manifest's map.

    ** What the theorems show (grouped)

    - End to end ([Bundle], [Pipeline]): after a run over the fifteen
      entries of the source that writes its output, Play's lookup of
      ["<entry name>.js"] in the output directory serves the serialization
      of the entry's reachable modules, each transformed by its loaders;
      the same holds for the asset object of [Pipeline] for any bundle.
      A run always has an outcome; it fails only on an unresolved
      specifier or a transform (leaving the previous output in place) or on
      a refused write, never on emission for these entries.
    - Emit hook ([Shim]): each matched script gets exactly one sidecar
      holding its hash verbatim; every other name keeps its asset; the keys
      are the old keys plus the sidecars; the hook keeps the object
      well-formed, never shims shared chunks or source maps, and is
      idempotent; the sidecar depends only on the basename and is always
      flat (the [dirname] of line 71 is unused); two concrete runs show
      the other divergences the manifest lists (an existing [.md5] asset
      is overwritten, two hashed scripts with the same basename share one
      sidecar).
    - The matcher of line 70 is exactly the language of the regular
      expression with its two capture groups (an equivalence), and it
      recovers the hash and the name [output.filename] renders (a round
      trip).
    - Entries: the keys of the map are the renamed entries, slash-free, in
      order, and distinct for the fifteen entries of the source; for any
      array the map has one property per name, that of the last entry
      with the name (colliding entries are not rejected).
    - Chunker: emission never collides on distinct entry names (the
      templates of lines 110-112 keep scripts, shared chunks and maps
      apart).
    - Graph: a built graph holds exactly the modules reachable from the
      entries, each once (cycle safety) with its resolved imports; the
      traversal never runs out of fuel and more fuel changes nothing; a
      failure is an unresolved specifier of a reachable module, and any
      such specifier fails the build; the graph has at most as many
      modules as there are files; the cycle [a -> b -> a] of section 8
      is run as an example.
    - Provide: the jQuery module is in the graph of every module using one
      of the plugin's identifiers.
    - Alias: a table with no overlapping names resolves independently of its
      order; each entry of the source's table resolves to its target;
      resolution is idempotent on the source's table; an entry module is
      looked up as is, with [.js], with [.coffee], under [context] then
      under [node_modules], and a relative import next to its importer
      with the same extensions, in that order (lines 156-157); a plain
      prefix would shadow longer names (an example).
    - Loaders: selection by extension, compile-then-minify for
      CoffeeScript, minification alone with the options of lines 97-101
      for JavaScript, every failure a [TransformFailure] naming the
      module.
    - Writer: after a successful write the directory holds exactly the
      assets and no stale file; a refused write aborts with [WriteFailure]
      before the cleanup plugin runs, so the previous build's files that
      were not overwritten are still there.

    Every theorem with hypotheses has a witness that applies it to concrete
    data: the instances [Chunker.sum_chunk_hash] (a three-digit checksum
    in hexadecimal), [Loaders.toy_transforms] and
    [Bundle.concat_serializer] show that the interfaces are satisfiable,
    and [Bundle.sample_dir] is a whole run over the fifteen entries.

    ** Fuel and bounds

    The only loop that is not structural is the traversal of [Graph]: it
    takes one unit of fuel per visited module and [build_graph] gives it
    [size fs], the number of files.  This is enough because every visited
    module is a file and no module is visited twice ([traverse_fuel]), so
    [OutOfFuel] never happens ([build_graph_terminates], [run_total]).
    Every other loop of the source is a structural recursion over a list
    or a string.  Natural numbers stand for the lengths JavaScript
    reports ([size] of a sidecar); no fixed-width arithmetic occurs in the
    configuration.

    ** Plan for the remaining work (in order of importance)

    1. Path normalization in [Alias] ([path_norm]) as a normal form for
       unclean paths, relative imports across directories ([../]), and
       directory requests.
    2. A model of webpack's chunk partition with shared chunks (the
       configuration declares none, so every chunk is an entry chunk now).
    3. One module traversal for all entries (as webpack compiles them),
       and its equivalence with the per-entry compilation of [Bundle].

    ** Not modelled

    Webpack itself beyond the behaviour the configuration selects; the
    transforms (CoffeeScript, UglifyES), which are opaque; the hash
    function, a parameter with its stated contract (non-empty lower-case
    hexadecimal); the parsing of a module (its imports and free
    identifiers are parameters); the bytes of a chunk, shaped by
    [HashedModuleIdsPlugin], [library]/[libraryTarget] and [devtool]
    (lines 106, 116-117, 152), which the [Serializer] interface
    abstracts: no file name and no lookup depends on them. *)

From stdpp Require Export base list strings.
From Stdlib Require Export Ascii.

Declare Scope webpack_scope.
Delimit Scope webpack_scope with webpack.
Open Scope webpack_scope.

(** ** Build errors (spec section 7) and the result monad *)

Inductive build_error :=
  | UnresolvedSpecifier (specifier importer : string)
  | DuplicateEntryName (name : string)
  | TransformFailure (file : string) (cause : string)
  | ChunkNamingCollision (filename : string)
  | WriteFailure (filename : string).

Inductive result (A : Type) :=
  | Ok (a : A)
  | Err (e : build_error).
Arguments Ok {A} a.
Arguments Err {A} e.

Definition result_bind {A B} (r : result A) (k : A -> result B) : result B :=
  match r with
  | Ok a => k a
  | Err e => Err e
  end.

Notation "'let!' x ':=' r 'in' k" := (result_bind r (fun x => k))
  (at level 10, x name, r at level 100, k at level 200) : webpack_scope.

Lemma result_bind_ok {A B} (r : result A) (k : A -> result B) b :
  result_bind r k = Ok b -> exists a, r = Ok a /\ k a = Ok b.
Proof. destruct r; simpl; [eauto | discriminate]. Qed.

Lemma result_bind_err {A B} (r : result A) (k : A -> result B) e :
  r = Err e -> result_bind r k = Err e.
Proof. intros ->. reflexivity. Qed.

(** [f] on every element in order; the first failure aborts. *)
Fixpoint result_map {A B} (f : A -> result B) (l : list A) : result (list B) :=
  match l with
  | [] => Ok []
  | x :: l' => let! y := f x in let! ys := result_map f l' in Ok (y :: ys)
  end.

Lemma result_map_Ok {A B} (f : A -> result B) l ys :
  result_map f l = Ok ys <-> Forall2 (fun x y => f x = Ok y) l ys.
Proof.
  revert ys. induction l as [|x l IH]; intros ys; simpl.
  - split; [by intros [= <-]|by inversion 1].
  - split.
    + destruct (f x) as [y|] eqn:Hx; simpl; [|discriminate].
      destruct (result_map f l) as [ys'|] eqn:E; simpl; [|discriminate].
      intros [= <-]. constructor; [done|]. by apply IH.
    + inversion 1 as [|? y ? ys' Hy Hys]; subst. rewrite Hy; simpl.
      by apply IH in Hys as ->.
Qed.

Lemma result_map_Err {A B} (f : A -> result B) l e :
  result_map f l = Err e -> exists x, x ∈ l /\ f x = Err e.
Proof.
  induction l as [|x l IH]; simpl; [discriminate|].
  destruct (f x) as [y|e'] eqn:Hx; simpl.
  - destruct (result_map f l); simpl; [discriminate|].
    intros [= ->]. destruct IH as (x' & ? & ?); [done|]. exists x'. by split; [right|].
  - intros [= ->]. exists x. by split; [left|].
Qed.

Lemma Forall2_elem_of_l {A B} (R : A -> B -> Prop) l k x :
  Forall2 R l k -> x ∈ l -> exists y, y ∈ k /\ R x y.
Proof.
  induction 1 as [|a b l k Hab _ IH]; [by intros ?%elem_of_nil|].
  intros [->|Hx]%elem_of_cons; [exists b; by split; [left|]|].
  destruct (IH Hx) as (y & ? & ?). exists y. by split; [right|].
Qed.

Lemma Forall2_elem_of_r {A B} (R : A -> B -> Prop) l k y :
  Forall2 R l k -> y ∈ k -> exists x, x ∈ l /\ R x y.
Proof.
  induction 1 as [|a b l k Hab _ IH]; [by intros ?%elem_of_nil|].
  intros [->|Hy]%elem_of_cons; [exists a; by split; [left|]|].
  destruct (IH Hy) as (x & ? & ?). exists x. by split; [right|].
Qed.

Lemma result_map_fails {A B} (f : A -> result B) l x e :
  x ∈ l -> f x = Err e -> exists e', result_map f l = Err e'.
Proof.
  intros Hx Hf. destruct (result_map f l) as [ys|e'] eqn:E; [|by eauto].
  apply result_map_Ok in E. destruct (Forall2_elem_of_l _ _ _ _ E Hx) as (y & _ & Hy).
  congruence.
Qed.

(** ** Strings

    Strings are [String.string]; [+:+] is stdpp's notation for
    [String.append], whose [simpl] is blocked by stdpp, so the equations
    below are the way proofs compute with it. *)

Lemma str_app_nil_l (s : string) : "" +:+ s = s.
Proof. reflexivity. Qed.

Lemma str_app_cons (c : ascii) (s1 s2 : string) :
  String c s1 +:+ s2 = String c (s1 +:+ s2).
Proof. reflexivity. Qed.

Lemma str_app_nil_r (s : string) : s +:+ "" = s.
Proof. induction s as [|c s IH]; [done|]. by rewrite str_app_cons, IH. Qed.

Lemma str_app_assoc (s1 s2 s3 : string) :
  s1 +:+ (s2 +:+ s3) = (s1 +:+ s2) +:+ s3.
Proof. induction s1 as [|c s1 IH]; [done|]. by rewrite !str_app_cons, IH. Qed.

Lemma str_length_app (s1 s2 : string) :
  String.length (s1 +:+ s2) = String.length s1 + String.length s2.
Proof. induction s1 as [|c s1 IH]; [done|]. rewrite str_app_cons; simpl; lia. Qed.

Lemma str_app_inv_r (s s1 s2 : string) : s1 +:+ s = s2 +:+ s -> s1 = s2.
Proof.
  revert s2. induction s1 as [|c1 s1 IH]; intros [|c2 s2] H.
  - done.
  - apply (f_equal String.length) in H.
    rewrite str_app_nil_l, str_app_cons in H. simpl in H.
    rewrite str_length_app in H. lia.
  - apply (f_equal String.length) in H.
    rewrite str_app_nil_l, str_app_cons in H. simpl in H.
    rewrite str_length_app in H. lia.
  - rewrite !str_app_cons in H. injection H as -> H. f_equal. by apply IH.
Qed.

Lemma str_app_eq_nil (s1 s2 : string) : s1 +:+ s2 = "" -> s1 = "" /\ s2 = "".
Proof. destruct s1; [done|]. rewrite str_app_cons. discriminate. Qed.

(** If [q ++ t = x ++ suf] and [suf] is no longer than [t], then [suf] is
    a suffix of [t]. *)
Lemma str_app_suffix (q t x suf : string) :
  q +:+ t = x +:+ suf -> String.length suf <= String.length t ->
  exists y, t = y +:+ suf.
Proof.
  revert x. induction q as [|c q IH]; intros x Heq Hlen.
  - by exists x.
  - destruct x as [|d x].
    + apply (f_equal String.length) in Heq.
      rewrite str_app_cons, str_app_nil_l in Heq. simpl in Heq. rewrite str_length_app in Heq. lia.
    + rewrite !str_app_cons in Heq. injection Heq as _ Heq. by apply (IH x).
Qed.

(** A boolean test that every character of a string satisfies [p]. *)
Fixpoint str_forallb (p : ascii -> bool) (s : string) : bool :=
  match s with
  | EmptyString => true
  | String c s' => p c && str_forallb p s'
  end.

Lemma str_forallb_app p (s1 s2 : string) :
  str_forallb p (s1 +:+ s2) = str_forallb p s1 && str_forallb p s2.
Proof.
  induction s1 as [|c s1 IH]; [done|].
  rewrite str_app_cons; simpl. rewrite IH. by destruct (p c).
Qed.

(** Whether the character [c] occurs in [s]. *)
Definition str_has (c : ascii) (s : string) : bool :=
  negb (str_forallb (fun d => negb (Ascii.eqb d c)) s).

Lemma str_has_app c (s1 s2 : string) :
  str_has c (s1 +:+ s2) = str_has c s1 || str_has c s2.
Proof. unfold str_has. rewrite str_forallb_app. by destruct (str_forallb _ s1). Qed.

Lemma str_has_cons c d (s : string) :
  str_has c (String d s) = Ascii.eqb d c || str_has c s.
Proof. unfold str_has; simpl. by destruct (Ascii.eqb d c). Qed.

(** ** Lists *)

(** A map without duplicates is injective on its list. *)
Lemma NoDup_map_inj_in {A B} (f : A -> B) (l : list A) x y :
  NoDup (map f l) -> x ∈ l -> y ∈ l -> f x = f y -> x = y.
Proof.
  induction l as [|z l IH]; simpl; [by intros _ ?%elem_of_nil|].
  intros [Hz Hnd]%NoDup_cons Hx Hy Hf.
  apply elem_of_cons in Hx as [->|Hx]; apply elem_of_cons in Hy as [->|Hy]; try done.
  - destruct Hz. rewrite Hf. apply list_elem_of_In, in_map, list_elem_of_In, Hy.
  - destruct Hz. rewrite <- Hf. apply list_elem_of_In, in_map, list_elem_of_In, Hx.
  - by apply IH.
Qed.

(** ** Automation *)

Create HintDb webpack discriminated.
Create Rewrite HintDb webpack_str.
#[export] Hint Rewrite str_app_nil_l str_app_nil_r str_app_cons str_length_app
  str_forallb_app str_has_app : webpack_str.
#[export] Hint Resolve str_app_inv_r : webpack.

(** Normalise string expressions with the equations of this file. *)
Ltac str_simpl := repeat (autorewrite with webpack_str in *; simpl in *).

(** Close a decidable goal about closed terms by evaluation. *)
Ltac by_decide := apply (bool_decide_unpack _); vm_compute; exact I.

(** Split a hypothesis [x ∈ [a; b; ...]] into one goal per element. *)
Ltac in_cases H :=
  repeat (apply elem_of_cons in H as [->|H]); [..|by apply elem_of_nil in H].

(** Destruct a boolean test together with its equation. *)
Ltac case_bool e := let E := fresh "E" in destruct e eqn:E.
