(* ===== verification/JsString.v ===== *)
(** * JavaScript string built-ins used by webpack.config.js

    [js_split] is [String.prototype.split] with a one-character separator
    (line 67: [filename.split('/')]), [js_join] is [Array.prototype.join]
    (line 71), [js_basename] is [pathParts[pathParts.length - 1]] (line 68),
    [js_replace_char] is [replace(/\//g, '-')] (line 94), and [match_hashed]
    is [/^([a-f0-9]+)-(.*\.js)$/.exec] (line 70) with its two groups.
    Characters are ASCII; JavaScript's [.] excludes the line terminators
    [\n], [\r], U+2028 and U+2029, of which the first two are ASCII. *)

From S2P Require Import Prelude.

Module JsString.

(** ** [split] and [join] *)

Fixpoint js_split (sep : ascii) (s : string) : list string :=
  match s with
  | EmptyString => [""]
  | String c s' =>
      match js_split sep s' with
      | p :: ps => if Ascii.eqb c sep then "" :: p :: ps else String c p :: ps
      | [] => [String c ""]
      end
  end.

Fixpoint js_join (sep : string) (parts : list string) : string :=
  match parts with
  | [] => ""
  | [p] => p
  | p :: ps => p +:+ sep +:+ js_join sep ps
  end.

(** Line 68: the last element of [filename.split('/')]. *)
Definition js_basename (filename : string) : string :=
  let pathParts := js_split "/" filename in
  default "" (pathParts !! (length pathParts - 1)).

(** Line 71: every part but the last, joined with ['/']. *)
Definition js_dirname (filename : string) : string :=
  let pathParts := js_split "/" filename in
  js_join "/" (take (length pathParts - 1) pathParts).

(** Line 94: [s.replace(/\//g, '-')], generalised to any pair of characters. *)
Fixpoint js_replace_char (from to : ascii) (s : string) : string :=
  match s with
  | EmptyString => EmptyString
  | String c s' =>
      String (if Ascii.eqb c from then to else c) (js_replace_char from to s')
  end.

(** ** The regular expression of line 70 *)

(** [[a-f0-9]]. *)
Definition is_hex_digit (c : ascii) : bool :=
  let n := nat_of_ascii c in
  ((48 <=? n) && (n <=? 57)) || ((97 <=? n) && (n <=? 102)).

(** The characters [.] does not match (the ASCII ones). *)
Definition is_line_terminator (c : ascii) : bool :=
  Ascii.eqb c "010" || Ascii.eqb c "013".

(** [s] ends with [suf]. *)
Fixpoint ends_with (suf s : string) : bool :=
  String.eqb s suf ||
  match s with
  | EmptyString => false
  | String _ s' => ends_with suf s'
  end.

(** The longest prefix of hexadecimal digits, and the rest. *)
Fixpoint span_hex (s : string) : string * string :=
  match s with
  | EmptyString => ("", "")
  | String c s' =>
      if is_hex_digit c then
        let '(h, r) := span_hex s' in (String c h, r)
      else ("", s)
  end.

(** [/^([a-f0-9]+)-(.*\.js)$/.exec(s)]: [Some (m[1], m[2])] or [None].
    The group [[a-f0-9]+] cannot contain ['-'], so the only candidate for
    [m[1]] is the longest hexadecimal prefix; backtracking to a shorter one
    would leave a hexadecimal digit, not ['-'], in front of the second
    group. *)
Definition match_hashed (s : string) : option (string * string) :=
  let '(h, rest) := span_hex s in
  match h, rest with
  | EmptyString, _ => None
  | _, EmptyString => None
  | _, String dash b =>
      if Ascii.eqb dash "-" &&
         str_forallb (fun c => negb (is_line_terminator c)) b && ends_with ".js" b
      then Some (h, b) else None
  end.

(** The language of the regular expression, with its captures: [s] is
    [h-b], [h] a non-empty word of [[a-f0-9]], [b] a word of [.] ending in
    [.js]. *)
Definition hashed_name (s h b : string) : Prop :=
  s = h +:+ String "-" b /\ h <> "" /\ str_forallb is_hex_digit h = true /\
  str_forallb (fun c => negb (is_line_terminator c)) b = true /\
  exists x, b = x +:+ ".js".

(** ** Lemmas *)

Lemma js_split_not_nil sep s : js_split sep s <> [].
Proof. destruct s; simpl; [done|]. destruct (js_split sep s); [done|]. by case_match. Qed.

Lemma js_split_parts sep s :
  Forall (fun p => str_has sep p = false) (js_split sep s).
Proof.
  induction s as [|c s IH]; simpl; [by repeat constructor|].
  destruct (js_split sep s) as [|p ps] eqn:E; [by apply js_split_not_nil in E|].
  inversion IH as [|? ? Hp Hps]; subst.
  case_bool (Ascii.eqb c sep); repeat constructor; try done.
  rewrite str_has_cons, E0. exact Hp.
Qed.

Lemma js_join_split sep s : js_join (String sep "") (js_split sep s) = s.
Proof.
  induction s as [|c s IH]; [done|]. simpl.
  destruct (js_split sep s) as [|p ps] eqn:E; [by apply js_split_not_nil in E|].
  case_bool (Ascii.eqb c sep).
  - apply Ascii.eqb_eq in E0 as ->. simpl. rewrite <- IH. by destruct ps.
  - rewrite <- IH. by destruct ps.
Qed.

Lemma js_basename_last filename :
  js_basename filename = default "" (last (js_split "/" filename)).
Proof.
  unfold js_basename. generalize (js_split "/" filename) as l.
  intros l. rewrite last_lookup. by replace (pred (length l)) with (length l - 1) by lia.
Qed.

Lemma ends_with_spec suf s : ends_with suf s = true <-> exists x, s = x +:+ suf.
Proof.
  split.
  - induction s as [|c s IH]; intros H; cbn [ends_with] in H.
    + destruct (String.eqb_spec "" suf) as [Heq|_]; [subst; by exists ""|done].
    + destruct (String.eqb_spec (String c s) suf) as [Heq|_]; [subst; by exists ""|].
      destruct (IH H) as [x ->]. by exists (String c x).
  - intros [x ->]. induction x as [|c x IH].
    + rewrite str_app_nil_l. destruct suf; cbn [ends_with]; by rewrite String.eqb_refl.
    + rewrite str_app_cons. cbn [ends_with]. rewrite IH. apply orb_true_r.
Qed.

Lemma span_hex_app s : fst (span_hex s) +:+ snd (span_hex s) = s.
Proof.
  induction s as [|c s IH]; [done|]. simpl.
  destruct (is_hex_digit c); [|done]. destruct (span_hex s); simpl in *. by rewrite <- IH.
Qed.

Lemma span_hex_hex s : str_forallb is_hex_digit (fst (span_hex s)) = true.
Proof.
  induction s as [|c s IH]; [done|]. simpl.
  case_bool (is_hex_digit c); [|done]. destruct (span_hex s); simpl in *. by rewrite E, IH.
Qed.

Lemma js_split_nosep sep t : str_has sep t = false -> js_split sep t = [t].
Proof.
  induction t as [|c t IH]; [done|]. rewrite str_has_cons. intros [Hc Ht]%orb_false_iff.
  simpl. by rewrite IH, Hc.
Qed.

(** Appending a text without separator extends the last part. *)
Lemma js_split_app_last sep s t :
  str_has sep t = false ->
  exists q, last (js_split sep (s +:+ t)) = Some (q +:+ t).
Proof.
  intros Ht. induction s as [|c s IH].
  - exists "". by rewrite str_app_nil_l, js_split_nosep.
  - destruct IH as [q Hq]. rewrite str_app_cons. simpl.
    destruct (js_split sep (s +:+ t)) as [|p ps]; [done|].
    destruct (Ascii.eqb c sep).
    + exists q. by rewrite last_cons_cons.
    + destruct ps as [|p' ps].
      * simpl in Hq. injection Hq as ->. by exists (String c q).
      * exists q. by rewrite last_cons_cons, <- Hq, last_cons_cons.
Qed.

Lemma js_basename_nosep t : str_has "/" t = false -> js_basename t = t.
Proof. intros Ht. unfold js_basename. by rewrite js_split_nosep. Qed.

Lemma js_basename_app s t :
  str_has "/" t = false -> exists q, js_basename (s +:+ t) = q +:+ t.
Proof.
  intros Ht. destruct (js_split_app_last "/" s t Ht) as [q Hq].
  exists q. by rewrite js_basename_last, Hq.
Qed.

(** Splitting at a separator: the parts of each side, concatenated. *)
Lemma js_split_app_sep sep s t :
  js_split sep (s +:+ String sep t) = js_split sep s ++ js_split sep t.
Proof.
  induction s as [|c s IH]; simpl.
  - rewrite Ascii.eqb_refl. by destruct (js_split sep t) eqn:E; [apply js_split_not_nil in E|].
  - rewrite IH. destruct (js_split sep s) as [|p ps] eqn:E; [by apply js_split_not_nil in E|].
    simpl. by destruct (Ascii.eqb c sep).
Qed.

Lemma js_basename_flat f : str_has "/" (js_basename f) = false.
Proof.
  rewrite js_basename_last. pose proof (js_split_parts "/" f) as Hp.
  destruct (last (js_split "/" f)) as [p|] eqn:E; [|done]. simpl.
  rewrite Forall_forall in Hp. apply Hp. by apply last_Some_elem_of.
Qed.

(** The basename of [d/f], for a flat [f], is [f]. *)
Lemma js_basename_under d f :
  str_has "/" f = false -> js_basename (d +:+ String "/" f) = f.
Proof.
  intros Hf. rewrite js_basename_last, js_split_app_sep, (js_split_nosep _ f Hf), last_app. done.
Qed.

Lemma ends_with_app_false suf q t :
  ends_with suf t = false -> String.length suf <= String.length t ->
  ends_with suf (q +:+ t) = false.
Proof.
  intros Ht Hlen. apply not_true_iff_false. intros [x Hx]%ends_with_spec.
  destruct (str_app_suffix q t x suf Hx Hlen) as [y ->].
  rewrite (proj2 (ends_with_spec suf (y +:+ suf))) in Ht; [done|by exists y].
Qed.

Lemma span_hex_stop h d r :
  str_forallb is_hex_digit h = true -> is_hex_digit d = false ->
  span_hex (h +:+ String d r) = (h, String d r).
Proof.
  intros Hh Hd. induction h as [|c h IH]; simpl; [by rewrite Hd|].
  apply andb_true_iff in Hh as [Hc Hh]. by rewrite Hc, IH.
Qed.

Lemma span_hex_dash h b :
  str_forallb is_hex_digit h = true -> span_hex (h +:+ String "-" b) = (h, String "-" b).
Proof. intros Hh. by apply span_hex_stop. Qed.

Lemma hex_no_char c h :
  is_hex_digit c = false -> str_forallb is_hex_digit h = true -> str_has c h = false.
Proof.
  intros Hc. induction h as [|d h IH]; [done|]. simpl. rewrite str_has_cons.
  intros [Hd Hh]%andb_true_iff. rewrite IH by done.
  destruct (Ascii.eqb_spec d c); subst; [congruence|done].
Qed.

(** ** The matcher is the regular expression *)

Lemma match_hashed_sound s h b : match_hashed s = Some (h, b) -> hashed_name s h b.
Proof.
  unfold match_hashed, hashed_name.
  pose proof (span_hex_app s) as Happ. pose proof (span_hex_hex s) as Hhex.
  destruct (span_hex s) as [h0 rest]; simpl in *.
  destruct h0 as [|c0 h0]; [discriminate|]. destruct rest as [|d b0]; [discriminate|].
  case_bool (Ascii.eqb d "-" && str_forallb (fun c => negb (is_line_terminator c)) b0
             && ends_with ".js" b0); [|discriminate].
  intros [= <- <-]. apply andb_true_iff in E as [[Hd Hb]%andb_true_iff Hjs].
  apply Ascii.eqb_eq in Hd as ->. apply ends_with_spec in Hjs. by subst s.
Qed.

Lemma match_hashed_complete s h b : hashed_name s h b -> match_hashed s = Some (h, b).
Proof.
  unfold match_hashed, hashed_name.
  intros (-> & Hne & Hhex & Hb & Hjs). rewrite span_hex_dash by done.
  destruct h as [|c h]; [done|]. rewrite Hb. simpl.
  by rewrite ?(proj2 (ends_with_spec ".js" b) Hjs).
Qed.

(** C4. [match_hashed] (line 70) returns [Some (h, b)] exactly when the
    basename is [h-b] with [h] a non-empty word of lower-case hexadecimal
    digits and [b] a word without line terminators ending in [.js]: the
    executable matcher recognises the language of the regular expression and
    returns its two capture groups. *)
Theorem match_hashed_spec s h b : match_hashed s = Some (h, b) <-> hashed_name s h b.
Proof. split; [apply match_hashed_sound | apply match_hashed_complete]. Qed.

(** A matched name ends in [.js] and contains a dash. *)
Lemma match_hashed_shape s h b :
  match_hashed s = Some (h, b) -> ends_with ".js" s = true /\ str_has "-" s = true.
Proof.
  intros (-> & _ & _ & _ & [x ->])%match_hashed_sound. split.
  - apply ends_with_spec. exists (h +:+ String "-" x). by rewrite <- str_app_assoc.
  - by rewrite str_has_app, str_has_cons, orb_true_r.
Qed.

End JsString.
