(* ===== verification/JsObject.v ===== *)
(** * JavaScript objects used as dictionaries

    [compilation.assets] (lines 66 and 82) and [entryPointsMap] (lines 92-94)
    are plain JavaScript objects with string keys.  An object is modelled as
    an association list in property order: reading a property returns the
    value of its key, assigning a property overwrites the value in place
    when the key exists and appends the key otherwise, and [for ... in]
    visits the keys in list order.  (JavaScript orders array-index keys such
    as ["7"] first; no key the build creates is one, since every asset name
    contains a ['.'] and every entry name a letter.)  The invariant is that
    no key occurs twice; [obj_set] preserves it. *)

From S2P Require Import Prelude.

Module JsObject.

Section Obj.
Context {A : Type}.

Definition obj := list (string * A).

(** [o[k]], [undefined] being [None]. *)
Fixpoint obj_get (k : string) (o : obj) : option A :=
  match o with
  | [] => None
  | (k', v) :: o' => if decide (k = k') then Some v else obj_get k o'
  end.

(** [o[k] = v]. *)
Fixpoint obj_set (k : string) (v : A) (o : obj) : obj :=
  match o with
  | [] => [(k, v)]
  | (k', v') :: o' => if decide (k = k') then (k, v) :: o' else (k', v') :: obj_set k v o'
  end.

(** The keys in [for ... in] order. *)
Definition obj_keys (o : obj) : list string := map fst o.

(** Assign every pair of [l], left to right. *)
Definition obj_set_all (l : list (string * A)) (o : obj) : obj :=
  fold_left (fun o kv => obj_set kv.1 kv.2 o) l o.

(** The value of the last pair of [l] with key [k]. *)
Fixpoint assoc_last (k : string) (l : list (string * A)) : option A :=
  match l with
  | [] => None
  | (k', v) :: l' =>
      match assoc_last k l' with
      | Some w => Some w
      | None => if decide (k = k') then Some v else None
      end
  end.

Definition obj_wf (o : obj) : Prop := NoDup (obj_keys o).

(** ** Lemmas *)

Lemma obj_get_set_eq k v o : obj_get k (obj_set k v o) = Some v.
Proof. induction o as [|[k' v'] o IH]; simpl; repeat case_decide; simpl; try case_decide; naive_solver. Qed.

Lemma obj_get_set_ne k k' v o : k <> k' -> obj_get k' (obj_set k v o) = obj_get k' o.
Proof.
  intros Hne. induction o as [|[k1 v1] o IH]; simpl; repeat (case_decide; simpl); naive_solver.
Qed.

Lemma obj_get_set k k' v o :
  obj_get k' (obj_set k v o) = if decide (k = k') then Some v else obj_get k' o.
Proof. case_decide; subst; [apply obj_get_set_eq | by apply obj_get_set_ne]. Qed.

Lemma obj_get_None k o : k ∉ obj_keys o -> obj_get k o = None.
Proof.
  induction o as [|[k' v] o IH]; simpl; [done|].
  rewrite not_elem_of_cons. intros [Hne Hk]. rewrite decide_False by done. auto.
Qed.

Lemma obj_get_Some_in k v o : obj_get k o = Some v -> k ∈ obj_keys o.
Proof.
  induction o as [|[k' v'] o IH]; simpl; [done|].
  case_decide; subst; intros; [left | right; auto].
Qed.

Lemma obj_keys_set k v o :
  obj_keys (obj_set k v o) = if decide (k ∈ obj_keys o) then obj_keys o else obj_keys o ++ [k].
Proof.
  induction o as [|[k' v'] o IH]; simpl; [done|].
  destruct (decide (k = k')) as [->|Hne]; simpl.
  - rewrite decide_True; [done|]. by left.
  - unfold obj_keys in *. simpl. rewrite IH.
    destruct (decide (k ∈ map fst o)) as [Hin|Hin].
    + rewrite decide_True; [done|]. by right.
    + rewrite decide_False; [done|]. rewrite elem_of_cons. intros [->|?]; contradiction.
Qed.

Lemma obj_set_wf k v o : obj_wf o -> obj_wf (obj_set k v o).
Proof.
  unfold obj_wf. rewrite obj_keys_set. case_decide; [done|].
  intros Hnd. apply NoDup_app. repeat split; [done| |by apply NoDup_singleton].
  intros x Hx ->%list_elem_of_singleton. done.
Qed.

Lemma obj_set_all_wf l o : obj_wf o -> obj_wf (obj_set_all l o).
Proof.
  unfold obj_set_all. revert o. induction l as [|kv l IH]; simpl; [done|].
  intros o Ho. apply IH, obj_set_wf, Ho.
Qed.

Lemma obj_get_set_all k l o :
  obj_get k (obj_set_all l o) =
  match assoc_last k l with Some v => Some v | None => obj_get k o end.
Proof.
  unfold obj_set_all. revert o. induction l as [|[k' v] l IH]; intros o; simpl; [done|].
  rewrite IH. destruct (assoc_last k l); [done|]. rewrite obj_get_set. by repeat case_decide.
Qed.

Lemma obj_keys_set_all l o :
  exists extra, obj_keys (obj_set_all l o) = obj_keys o ++ extra /\
                Forall (fun k => k ∈ map fst l) extra.
Proof.
  unfold obj_set_all. revert o. induction l as [|[k v] l IH]; intros o; simpl.
  - exists []. by rewrite app_nil_r.
  - destruct (IH (obj_set k v o)) as (extra & Hk & Hf). rewrite Hk, obj_keys_set.
    case_decide.
    + exists extra. split; [done|]. eapply Forall_impl; [done|]. intros; by right.
    + exists (k :: extra). rewrite <- app_assoc. split; [done|].
      constructor; [left|]. eapply Forall_impl; [done|]. intros; by right.
Qed.

Lemma obj_keys_set_all_same l o :
  Forall (fun kv => kv.1 ∈ obj_keys o) l -> obj_keys (obj_set_all l o) = obj_keys o.
Proof.
  unfold obj_set_all. revert o. induction l as [|[k v] l IH]; intros o Hl; simpl; [done|].
  inversion Hl as [|? ? Hk Hl']; subst. simpl in Hk.
  assert (Hks : obj_keys (obj_set k v o) = obj_keys o) by (rewrite obj_keys_set; by case_decide).
  rewrite IH; [done|]. rewrite Hks. done.
Qed.

(** Two well-formed objects with the same key order and the same
    properties are the same object. *)
Lemma obj_ext o1 o2 :
  obj_wf o1 -> obj_keys o1 = obj_keys o2 -> (forall k, obj_get k o1 = obj_get k o2) -> o1 = o2.
Proof.
  unfold obj_wf. revert o2. induction o1 as [|[k1 v1] o1 IH]; intros [|[k2 v2] o2] Hnd Hk Hg;
    try discriminate; [done|].
  simpl in Hk. injection Hk as <- Hk. inversion Hnd as [|? ? Hn1 Hnd1]; subst.
  pose proof (Hg k1) as H1. simpl in H1. rewrite !decide_True in H1 by done.
  injection H1 as <-. f_equal. apply IH; [done|done|].
  intros k. destruct (decide (k = k1)) as [->|Hne].
  - rewrite !obj_get_None; [done| |done]. by rewrite <- Hk.
  - pose proof (Hg k) as Hk'. simpl in Hk'. by rewrite !decide_False in Hk'.
Qed.

Lemma assoc_last_Some k l : k ∈ map fst l -> is_Some (assoc_last k l).
Proof.
  induction l as [|[k' v] l IH]; simpl; [by intros ?%elem_of_nil|].
  rewrite elem_of_cons. intros Hk. destruct (assoc_last k l); [done|].
  case_decide; [done|]. destruct Hk as [->|Hk]; [done|]. by destruct (IH Hk).
Qed.

Lemma assoc_last_In k v l : assoc_last k l = Some v -> (k, v) ∈ l.
Proof.
  induction l as [|[k' w] l IH]; simpl; [done|].
  destruct (assoc_last k l) as [w'|]; [intros [= ->]; right; auto|].
  case_decide; [intros [= ->]; subst; left|done].
Qed.

Lemma assoc_last_NoDup k v l : NoDup (map fst l) -> (k, v) ∈ l -> assoc_last k l = Some v.
Proof.
  induction l as [|[k' w] l IH]; simpl; [by intros _ ?%elem_of_nil|].
  intros [Hn Hnd]%NoDup_cons. rewrite elem_of_cons. intros [[= -> ->]|Hin].
  - rewrite decide_True by done. destruct (assoc_last k' l) as [w'|] eqn:E; [|done].
    apply assoc_last_In in E. destruct Hn. apply list_elem_of_In, in_map_iff.
    exists (k', w'). split; [done|]. by apply list_elem_of_In.
  - by rewrite IH.
Qed.

Lemma obj_get_set_all_NoDup k v l :
  NoDup (map fst l) -> (k, v) ∈ l -> obj_get k (obj_set_all l []) = Some v.
Proof. intros Hnd Hin. by rewrite obj_get_set_all, (assoc_last_NoDup k v). Qed.

Lemma elem_of_obj_keys_set_all k l o :
  k ∈ obj_keys (obj_set_all l o) <-> k ∈ obj_keys o \/ k ∈ map fst l.
Proof.
  destruct (obj_keys_set_all l o) as (extra & Hk & Hx). rewrite Hk, elem_of_app. split.
  - intros [Hin|Hin]; [by left|right]. by rewrite Forall_forall in Hx; apply Hx.
  - intros [Hin|Hin]; [by left|]. rewrite <- elem_of_app, <- Hk.
    destruct (assoc_last_Some k l Hin) as [v Hv]. apply (obj_get_Some_in k v).
    by rewrite obj_get_set_all, Hv.
Qed.

(** Assigning the same pairs twice is assigning them once. *)
Lemma obj_set_all_idem l o : obj_wf o -> obj_set_all l (obj_set_all l o) = obj_set_all l o.
Proof.
  intros Hwf. apply obj_ext.
  - by do 2 apply obj_set_all_wf.
  - apply obj_keys_set_all_same. apply Forall_forall. intros [k v] Hin. simpl.
    destruct (assoc_last_Some k l) as [w Hw].
    { apply list_elem_of_In, in_map_iff. exists (k, v). split; [done|]. by apply list_elem_of_In. }
    apply (obj_get_Some_in k w). by rewrite obj_get_set_all, Hw.
  - intros k. rewrite !obj_get_set_all. by destruct (assoc_last k l).
Qed.

Lemma assoc_last_None k l : k ∉ map fst l -> assoc_last k l = None.
Proof.
  induction l as [|[k' v] l IH]; simpl; [done|].
  rewrite not_elem_of_cons. intros [Hne Hk]. rewrite IH by done. by case_decide.
Qed.

(** In a well-formed object the last pair of a key is its only one. *)
Lemma assoc_last_wf k o : obj_wf o -> assoc_last k o = obj_get k o.
Proof.
  unfold obj_wf. induction o as [|[k' v] o IH]; simpl; [done|].
  intros [Hn Hnd]%NoDup_cons. case_decide as Hk.
  - subst. by rewrite assoc_last_None.
  - rewrite IH by done. by destruct (obj_get k o).
Qed.

End Obj.

Lemma assoc_last_fmap {A B} (f : A -> B) k (l : list (string * A)) :
  assoc_last k (map (fun kv => (kv.1, f kv.2)) l) = f <$> assoc_last k l.
Proof.
  induction l as [|[k' v] l IH]; simpl; [done|]. rewrite IH.
  destruct (assoc_last k l); simpl; [done|]. by case_decide.
Qed.

Arguments obj : clear implicits.

End JsObject.
