(* ===== verification/Shim.v ===== *)
(** * The emit hook [RedirectPlayFrameworkUsingDummyMd5Files] (lines 61-90)

    Play's [AssetsFinder] serves [X.js] by reading [X.js.md5] and serving
    [<md5>-X.js].  Webpack names each entry bundle ["[chunkhash]-[name].js"],
    so the hook, run at webpack's [emit] stage, walks [compilation.assets]
    and, for every asset whose basename matches [/^([a-f0-9]+)-(.*\.js)$/],
    adds an asset ["<m[2]>.md5"] whose source is [m[1]].

    The hook is modelled as a function on the asset object: [fake_md5_of]
    is the body of the first loop (lines 67-78), [collect_fake_md5] the first
    loop with its [push] (lines 64-79), [add_fake_md5] the second loop
    (lines 81-86) and [redirect_emit] the whole hook (lines 63-89); its
    [callback()] hands the updated object back to webpack. *)

From S2P Require Import Prelude JsString JsObject.
Import JsString JsObject.

Module Shim.

(** A compilation asset: [{ source: () => ..., size: () => ... }]. *)
Record asset := { source : string; size : nat }.

(** The records pushed on [fakeMd5Assets] (lines 74-77). *)
Record fake_md5_asset := { fm_filename : string; fm_contents : string }.

(** Lines 67-78 for one [filename].  ([dirname], line 71, is computed and
    never used: the sidecar is always placed at the top level.) *)
Definition fake_md5_of (filename : string) : option fake_md5_asset :=
  let basename := js_basename filename in
  match match_hashed basename with
  | Some (hashThatIsntReallyMd5, basenameWithoutHash) =>
      Some {| fm_filename := basenameWithoutHash +:+ ".md5";
              fm_contents := hashThatIsntReallyMd5 |}
  | None => None
  end.

(** Lines 66-79: one iteration, with [fakeMd5Assets.push]. *)
Definition collect_step (fakeMd5Assets : list fake_md5_asset) (filename : string) :
    list fake_md5_asset :=
  match fake_md5_of filename with
  | Some a => fakeMd5Assets ++ [a]
  | None => fakeMd5Assets
  end.

(** Lines 64-79: [for (const filename in compilation.assets)]. *)
Definition collect_fake_md5 (assets : obj asset) : list fake_md5_asset :=
  fold_left collect_step (obj_keys assets) [].

(** Lines 82-85: the asset object created for a sidecar. *)
Definition md5_asset_value (newAsset : fake_md5_asset) : asset :=
  {| source := fm_contents newAsset; size := String.length (fm_contents newAsset) |}.

(** Lines 81-86: [fakeMd5Assets.forEach(newAsset => compilation.assets[...] = ...)]. *)
Definition add_fake_md5 (fakeMd5Assets : list fake_md5_asset) (assets : obj asset) : obj asset :=
  fold_left (fun assets newAsset =>
               obj_set (fm_filename newAsset) (md5_asset_value newAsset) assets)
            fakeMd5Assets assets.

(** Lines 63-89: the emit hook. *)
Definition redirect_emit (assets : obj asset) : obj asset :=
  add_fake_md5 (collect_fake_md5 assets) assets.

(** The name of the sidecar a filename receives, if any. *)
Definition sidecar_name (filename : string) : option string :=
  fm_filename <$> fake_md5_of filename.

(** ** The loops as list functions *)

Lemma collect_loop ks acc :
  fold_left collect_step ks acc = acc ++ omap fake_md5_of ks.
Proof.
  revert acc. induction ks as [|k ks IH]; intros acc; simpl.
  - by rewrite app_nil_r.
  - unfold collect_step at 2. destruct (fake_md5_of k); rewrite IH; [by rewrite <- app_assoc|done].
Qed.

Lemma collect_fake_md5_omap assets :
  collect_fake_md5 assets = omap fake_md5_of (obj_keys assets).
Proof. apply collect_loop. Qed.

Definition sidecar_pairs (fakes : list fake_md5_asset) : list (string * asset) :=
  map (fun a => (fm_filename a, md5_asset_value a)) fakes.

Lemma add_fake_md5_set_all fakes assets :
  add_fake_md5 fakes assets = obj_set_all (sidecar_pairs fakes) assets.
Proof.
  unfold add_fake_md5, obj_set_all, sidecar_pairs.
  revert assets. induction fakes as [|a fakes IH]; intros assets; simpl; [done|]. apply IH.
Qed.

(** Unfold the hook into the assignment of its sidecar pairs. *)
Ltac unfold_emit := unfold redirect_emit; rewrite ?collect_fake_md5_omap, ?add_fake_md5_set_all.

(** ** Facts about one filename *)

Lemma fake_md5_of_spec filename a :
  fake_md5_of filename = Some a <->
  exists b, match_hashed (js_basename filename) = Some (fm_contents a, b) /\
            fm_filename a = b +:+ ".md5".
Proof.
  unfold fake_md5_of. destruct (match_hashed (js_basename filename)) as [[h b]|].
  - split.
    + intros [= <-]. by exists b.
    + intros (b' & [= -> ->] & Hf). destruct a; simpl in *. by subst.
  - split; [done|]. by intros (b & ? & _).
Qed.

(** A filename whose basename ends in a suffix that is not [.js], and has
    no ['/'] in it, gets no sidecar. *)
Lemma fake_md5_of_suffix f t :
  str_has "/" t = false -> ends_with ".js" t = false -> 3 <= String.length t ->
  fake_md5_of (f +:+ t) = None.
Proof.
  intros Hs Hjs Hlen. unfold fake_md5_of.
  destruct (js_basename_app f t Hs) as [q ->].
  destruct (match_hashed (q +:+ t)) as [[h b]|] eqn:E; [|done].
  apply match_hashed_shape in E as [E _]. by rewrite ends_with_app_false in E.
Qed.

Lemma sidecar_pairs_In k v ks :
  (k, v) ∈ sidecar_pairs (omap fake_md5_of ks) ->
  exists f a, f ∈ ks /\ fake_md5_of f = Some a /\ k = fm_filename a /\ v = md5_asset_value a.
Proof.
  unfold sidecar_pairs. rewrite list_elem_of_In, in_map_iff.
  intros (a & [= <- <-] & Ha). apply list_elem_of_In, list_elem_of_omap in Ha as (f & Hf & Ha).
  by exists f, a.
Qed.

Lemma sidecar_keys_In k ks :
  k ∈ map fst (sidecar_pairs (omap fake_md5_of ks)) <->
  exists f, f ∈ ks /\ sidecar_name f = Some k.
Proof.
  unfold sidecar_pairs, sidecar_name. rewrite map_map, !list_elem_of_In, in_map_iff. split.
  - intros (a & <- & Ha). apply list_elem_of_In, list_elem_of_omap in Ha as (f & Hf & Ha).
    exists f. split; [done|]. by rewrite Ha.
  - intros (f & Hf & Hs). destruct (fake_md5_of f) as [a|] eqn:Ha; [|done].
    injection Hs as <-. exists a. split; [done|].
    apply list_elem_of_In, list_elem_of_omap. by exists f.
Qed.

Lemma sidecar_name_md5 f k : sidecar_name f = Some k -> exists b, k = b +:+ ".md5".
Proof.
  unfold sidecar_name. destruct (fake_md5_of f) as [a|] eqn:Ha; [|done]. intros [= <-].
  apply fake_md5_of_spec in Ha as (b & _ & ->). by exists b.
Qed.

(** A sidecar name never gets a sidecar of its own. *)
(** Sidecar names are flat: they are cut from a basename. *)
Lemma sidecar_name_flat f k : sidecar_name f = Some k -> str_has "/" k = false.
Proof.
  unfold sidecar_name. destruct (fake_md5_of f) as [a|] eqn:Ha; [|done]. intros [= <-].
  apply fake_md5_of_spec in Ha as (b & (Hs & _)%match_hashed_sound & ->).
  pose proof (js_basename_flat f) as Hb. rewrite Hs, str_has_app, str_has_cons in Hb.
  apply orb_false_iff in Hb as [_ Hb]. apply orb_false_iff in Hb as [_ Hb].
  by rewrite str_has_app, Hb.
Qed.

Lemma fake_md5_of_md5 b : fake_md5_of (b +:+ ".md5") = None.
Proof. apply fake_md5_of_suffix; [reflexivity | reflexivity | simpl; lia]. Qed.

(** ** Properties of the hook *)

(** The sidecar [k] holds [h] when some filename yields [k] and every
    filename that yields [k] carries the hash [h]. *)
Lemma sidecar_assoc_unique k h ks :
  (exists f, f ∈ ks /\ sidecar_name f = Some k) ->
  (forall f a, f ∈ ks -> fake_md5_of f = Some a -> fm_filename a = k -> fm_contents a = h) ->
  assoc_last k (sidecar_pairs (omap fake_md5_of ks)) =
    Some (md5_asset_value {| fm_filename := k; fm_contents := h |}).
Proof.
  intros Hex Huniq.
  destruct (assoc_last_Some k (sidecar_pairs (omap fake_md5_of ks))) as [w Hw].
  { by apply sidecar_keys_In. }
  rewrite Hw. apply assoc_last_In, sidecar_pairs_In in Hw as (f & a & Hf & Ha & Hk & ->).
  rewrite <- (Huniq f a Hf Ha (eq_sym Hk)), Hk. by destruct a.
Qed.

(** A name that is no sidecar name keeps its value through the hook. *)
Lemma sidecars_get_other k ks base :
  (forall f, f ∈ ks -> sidecar_name f <> Some k) ->
  obj_get k (obj_set_all (sidecar_pairs (omap fake_md5_of ks)) base) = obj_get k base.
Proof.
  intros Hk. rewrite obj_get_set_all.
  destruct (assoc_last k _) as [w|] eqn:Hw; [|done].
  apply assoc_last_In in Hw.
  assert (Hkin : k ∈ map fst (sidecar_pairs (omap fake_md5_of ks))).
  { apply list_elem_of_In, in_map_iff. exists (k, w). split; [done|]. by apply list_elem_of_In. }
  apply sidecar_keys_In in Hkin as (f & Hf & Hs). by destruct (Hk f Hf).
Qed.

(** A name ending in [.js] is never a sidecar name. *)
Lemma sidecar_name_not_js f k : sidecar_name f = Some k -> ends_with ".js" k = false.
Proof.
  intros (b & ->)%sidecar_name_md5. apply ends_with_app_false; [reflexivity|simpl; lia].
Qed.

(** C3. After the hook, every emitted asset whose basename is [h-b] (with
    [h] hexadecimal and [b] ending in [.js]) has a sidecar named [b.md5]
    whose source is exactly [h] (no added whitespace, no re-hashing) and
    whose size is the length of [h], provided no other asset has the same
    [b] with a different hash. *)
Theorem redirect_emit_sidecar assets filename h b :
  filename ∈ obj_keys assets ->
  match_hashed (js_basename filename) = Some (h, b) ->
  (forall f h', f ∈ obj_keys assets -> match_hashed (js_basename f) = Some (h', b) -> h' = h) ->
  obj_get (b +:+ ".md5") (redirect_emit assets) =
    Some {| source := h; size := String.length h |}.
Proof.
  intros Hin Hm Huniq. unfold_emit. rewrite obj_get_set_all, (sidecar_assoc_unique _ h); [reflexivity| |].
  - exists filename. split; [done|]. unfold sidecar_name, fake_md5_of. by rewrite Hm.
  - intros f a Hf (b' & Hm' & ->)%fake_md5_of_spec Hk.
    apply str_app_inv_r in Hk as ->. by apply (Huniq f).
Qed.

(** C5. The hook changes no asset except at a sidecar name: an asset name
    that is not the sidecar name of any asset keeps its value; in
    particular every script, whose name ends in [.js], keeps its bytes. *)
Theorem redirect_emit_preserves assets k :
  (forall f, f ∈ obj_keys assets -> sidecar_name f <> Some k) \/ ends_with ".js" k = true ->
  obj_get k (redirect_emit assets) = obj_get k assets.
Proof.
  unfold_emit. intros [Hk|Hjs]; apply sidecars_get_other; [done|].
  intros f _ Hs. apply sidecar_name_not_js in Hs. congruence.
Qed.

(** C6. The hook is additive: the asset names keep their order and the
    names it appends are sidecar names of existing assets. *)
Theorem redirect_emit_keys assets :
  exists extra, obj_keys (redirect_emit assets) = obj_keys assets ++ extra /\
    Forall (fun k => exists f, f ∈ obj_keys assets /\ sidecar_name f = Some k) extra.
Proof.
  unfold_emit.
  destruct (obj_keys_set_all (sidecar_pairs (omap fake_md5_of (obj_keys assets))) assets)
    as (extra & Hk & Hf).
  exists extra. split; [done|]. eapply Forall_impl; [done|]. intros k. apply sidecar_keys_In.
Qed.

(** The hook keeps the asset object well formed: every name, each
    sidecar name included, occurs once. *)
Theorem redirect_emit_wf assets : obj_wf assets -> obj_wf (redirect_emit assets).
Proof. intros Hwf. unfold_emit. by apply obj_set_all_wf. Qed.

Lemma sidecar_name_chunk h :
  str_forallb is_hex_digit h = true -> sidecar_name (h +:+ ".chunk.js") = None.
Proof.
  intros Hh. unfold sidecar_name.
  assert (Hnc : forall c, is_hex_digit c = false -> str_has c ".chunk.js" = false ->
                str_has c (h +:+ ".chunk.js") = false).
  { intros c Hc Hs. by rewrite str_has_app, hex_no_char, Hs. }
  unfold fake_md5_of. rewrite js_basename_nosep by (by apply Hnc).
  destruct (match_hashed (h +:+ ".chunk.js")) as [[h' b]|] eqn:E; [|done].
  apply match_hashed_shape in E as [_ E]. by rewrite Hnc in E.
Qed.

Lemma sidecar_name_map f : sidecar_name (f +:+ ".map") = None.
Proof. unfold sidecar_name. by rewrite fake_md5_of_suffix by (reflexivity || (simpl; lia)). Qed.

(** C9. The hook never shims a shared chunk [<hash>.chunk.js] nor a
    source map [<file>.map]: their names contain no ['-'] after a hash, or
    do not end in [.js]. *)
Theorem no_sidecar_for_chunks_and_maps h f :
  str_forallb is_hex_digit h = true ->
  sidecar_name (h +:+ ".chunk.js") = None /\ sidecar_name (f +:+ ".map") = None.
Proof. intros Hh. split; [by apply sidecar_name_chunk | apply sidecar_name_map]. Qed.

(** A hashed name [h-b] gets the sidecar [b.md5] holding [h]. *)
Lemma fake_md5_of_hashed h b :
  h <> "" -> str_forallb is_hex_digit h = true ->
  str_has "/" b = false -> str_forallb (fun c => negb (is_line_terminator c)) b = true ->
  (exists x, b = x +:+ ".js") ->
  fake_md5_of (h +:+ String "-" b) = Some {| fm_filename := b +:+ ".md5"; fm_contents := h |}.
Proof.
  intros Hne Hh Hb Hlt Hjs. unfold fake_md5_of.
  rewrite js_basename_nosep.
  2: { by rewrite str_has_app, hex_no_char, str_has_cons, Hb. }
  by rewrite (match_hashed_complete _ h b).
Qed.

(** C31. The hook is idempotent: running it on its own output adds nothing,
    since a sidecar name ends in [.md5] and never matches. *)
Theorem redirect_emit_idempotent assets :
  obj_wf assets -> redirect_emit (redirect_emit assets) = redirect_emit assets.
Proof.
  intros Hwf.
  assert (HR : redirect_emit assets =
               obj_set_all (sidecar_pairs (omap fake_md5_of (obj_keys assets))) assets)
    by (unfold_emit; reflexivity).
  assert (Hc : omap fake_md5_of (obj_keys (redirect_emit assets)) =
               omap fake_md5_of (obj_keys assets)).
  { rewrite HR.
    destruct (obj_keys_set_all (sidecar_pairs (omap fake_md5_of (obj_keys assets))) assets)
      as (extra & -> & Hf). rewrite omap_app.
    enough (omap fake_md5_of extra = []) as -> by apply app_nil_r.
    induction Hf as [|k extra Hk _ IH]; [done|]. simpl.
    apply sidecar_keys_In in Hk as (f & _ & Hs).
    destruct (sidecar_name_md5 _ _ Hs) as [b ->]. by rewrite fake_md5_of_md5. }
  unfold redirect_emit at 1. rewrite collect_fake_md5_omap, add_fake_md5_set_all, Hc, HR.
  by apply obj_set_all_idem.
Qed.

(** ** Witnesses *)

(** What webpack emits for one entry: the bundle, its source map, and a
    shared chunk. *)
Definition sample_assets : obj asset :=
  [("0a1b-home.js", {| source := "bundle"; size := 6 |});
   ("0a1b-home.js.map", {| source := "map"; size := 3 |});
   ("ff.chunk.js", {| source := "chunk"; size := 5 |})].

Lemma redirect_emit_sidecar_witness :
  obj_get "home.js.md5" (redirect_emit sample_assets) = Some {| source := "0a1b"; size := 4 |}.
Proof.
  apply (redirect_emit_sidecar sample_assets "0a1b-home.js" "0a1b" "home.js"); [by_decide | reflexivity |].
  intros f h' Hf Hm. in_cases Hf; vm_compute in Hm; congruence.
Defined.

Lemma redirect_emit_preserves_witness :
  obj_get "0a1b-home.js.map" (redirect_emit sample_assets) =
  obj_get "0a1b-home.js.map" sample_assets.
Proof.
  apply redirect_emit_preserves. left. intros f Hf. in_cases Hf; vm_compute; congruence.
Defined.

Lemma redirect_emit_wf_witness : obj_wf (redirect_emit sample_assets).
Proof. apply redirect_emit_wf. unfold obj_wf. by_decide. Defined.

Lemma no_sidecar_for_chunks_and_maps_witness :
  sidecar_name ("ff" +:+ ".chunk.js") = None /\ sidecar_name ("0a1b-home.js" +:+ ".map") = None.
Proof. apply no_sidecar_for_chunks_and_maps. reflexivity. Defined.

Lemma redirect_emit_idempotent_witness :
  redirect_emit (redirect_emit sample_assets) = redirect_emit sample_assets.
Proof. apply redirect_emit_idempotent. unfold obj_wf. by_decide. Defined.

(** ** Behaviours the specification does not describe *)

(** The hook is not purely additive: an asset that already has a
    sidecar's name is overwritten. *)
Example redirect_emit_overwrites_existing_md5 :
  obj_get "home.js.md5"
    (redirect_emit [("0a1b-home.js", {| source := "bundle"; size := 6 |});
                    ("home.js.md5", {| source := "stale"; size := 5 |})]) =
  Some {| source := "0a1b"; size := 4 |}.
Proof. vm_compute. reflexivity. Qed.

(** Two hashed assets with the same name after the hash get one
    sidecar, holding the hash of the later one. *)
Example redirect_emit_duplicate_basename :
  let out := redirect_emit [("0a-x.js", {| source := "v1"; size := 2 |});
                            ("1b-x.js", {| source := "v2"; size := 2 |})] in
  obj_get "x.js.md5" out = Some {| source := "1b"; size := 2 |} /\
  length (filter (fun k => k = "x.js.md5") (obj_keys out)) = 1.
Proof. vm_compute. split; reflexivity. Qed.

(** C32. The sidecar of an asset depends only on its basename: an asset
    [d/f] gets the sidecar of [f], and every sidecar name is flat, so the
    sidecar of an asset in a subdirectory lands at the top level and not
    next to it, where Play looks ([[dirname]/[basename].js.md5]); the
    [dirname] of line 71 is unused. *)
Theorem fake_md5_of_ignores_dirname d f :
  str_has "/" f = false ->
  fake_md5_of (d +:+ String "/" f) = fake_md5_of f /\
  forall k, sidecar_name (d +:+ String "/" f) = Some k -> str_has "/" k = false.
Proof.
  intros Hf. split; [unfold fake_md5_of; by rewrite js_basename_under, (js_basename_nosep f)|].
  apply sidecar_name_flat.
Qed.

Lemma fake_md5_of_ignores_dirname_witness :
  fake_md5_of ("sub" +:+ String "/" "0a1b-home.js") = fake_md5_of "0a1b-home.js" /\
  forall k, sidecar_name ("sub" +:+ String "/" "0a1b-home.js") = Some k -> str_has "/" k = false.
Proof. apply fake_md5_of_ignores_dirname. reflexivity. Defined.

End Shim.
