(* ===== verification/Entries.v ===== *)
(** * The entry registry: [entryPoints] and [entryPointsMap] (lines 8-24, 92-95)

    The array [entryPoints] lists the fifteen page scripts.  Lines 92-95
    build the object [entryPointsMap] handed to webpack as [entry]: the key
    of an entry is its path with every ['/'] replaced by ['-'] (webpack's
    [[name]] cannot hold a directory, see the comment of lines 58-59), the
    value is the module ["bundle/" + entry].  The build is a loop of
    property assignments, so a second entry with the same key silently
    replaces the first. *)

From S2P Require Import Prelude JsString JsObject.
Import JsString JsObject.

Module Entries.

(** Lines 8-24. *)
Definition entryPoints : list string := [
  "admin/Job/index";
  "admin/Plugin/index";
  "admin/User/index";
  "ApiToken/index";
  "CsvUpload/new";
  "DocumentCloudImportJob/new";
  "DocumentCloudProject/index";
  "DocumentSet/index";
  "DocumentSet/show";
  "DocumentSet/show-progress";
  "DocumentSetUser/index";
  "FileImport/new";
  "PublicDocumentSet/index";
  "SharedDocumentSet/index";
  "Welcome/show"].

(** Line 94, the key: [entryPoint.replace(/\//g, '-')]. *)
Definition entry_name (entryPoint : string) : string := js_replace_char "/" "-" entryPoint.

(** Line 94, the value: [`bundle/${entryPoint}`]. *)
Definition entry_module (entryPoint : string) : string := "bundle/" +:+ entryPoint.

(** Lines 92-95 for an array [eps]. *)
Definition build_entry_map (eps : list string) : obj string :=
  fold_left (fun entryPointsMap entryPoint =>
               obj_set (entry_name entryPoint) (entry_module entryPoint) entryPointsMap)
            eps [].

Definition entryPointsMap : obj string := build_entry_map entryPoints.

(** ** Lemmas *)

Definition entry_pairs (eps : list string) : list (string * string) :=
  map (fun ep => (entry_name ep, entry_module ep)) eps.

Lemma build_entry_map_set_all eps : build_entry_map eps = obj_set_all (entry_pairs eps) [].
Proof.
  unfold build_entry_map, obj_set_all, entry_pairs. generalize (@nil (string * string)).
  induction eps as [|ep eps IH]; intros o; simpl; [done|]. apply IH.
Qed.

Lemma js_replace_char_has from to s :
  from <> to -> str_has from (js_replace_char from to s) = false.
Proof.
  intros Hne. induction s as [|c s IH]; [done|]. simpl. rewrite str_has_cons, IH, orb_false_r.
  destruct (Ascii.eqb_spec c from); apply Ascii.eqb_neq; congruence.
Qed.

Lemma js_replace_char_length from to s :
  String.length (js_replace_char from to s) = String.length s.
Proof. induction s; simpl; auto. Qed.

Lemma entry_name_no_slash ep : str_has "/" (entry_name ep) = false.
Proof. apply js_replace_char_has. discriminate. Qed.

(** The fifteen entries of the source have distinct names. *)
Lemma entry_names_NoDup : NoDup (map entry_name entryPoints).
Proof. by_decide. Qed.

(** The entries of the source are printable: no line terminator. *)
Lemma entryPoints_printable ep :
  ep ∈ entryPoints -> str_forallb (fun c => negb (is_line_terminator c)) (entry_name ep) = true.
Proof. intros Hep. in_cases Hep; reflexivity. Qed.

Lemma entryPointsMap_eq :
  entryPointsMap = map (fun ep => (entry_name ep, entry_module ep)) entryPoints.
Proof. vm_compute. reflexivity. Qed.

(** ** Properties *)

(** C11. Every key of the entry map built from any array is free of ['/']
    and is the name of an entry of the array: the [[name]] webpack puts in
    the output file name is flat. *)
Theorem build_entry_map_keys eps k :
  k ∈ obj_keys (build_entry_map eps) ->
  str_has "/" k = false /\ exists ep, ep ∈ eps /\ entry_name ep = k.
Proof.
  rewrite build_entry_map_set_all. destruct (obj_keys_set_all (entry_pairs eps) []) as (x & -> & Hx).
  simpl. intros Hk. rewrite Forall_forall in Hx. specialize (Hx k Hk).
  unfold entry_pairs in Hx. rewrite map_map, list_elem_of_In, in_map_iff in Hx.
  destruct Hx as (ep & <- & Hep). split; [apply entry_name_no_slash|].
  exists ep. split; [by apply list_elem_of_In|done].
Qed.

Lemma build_entry_map_keys_witness :
  str_has "/" "admin-Job-index" = false /\
  exists ep, ep ∈ entryPoints /\ entry_name ep = "admin-Job-index".
Proof. apply (build_entry_map_keys entryPoints). by_decide. Defined.

(** C10. When no two entries share a name after the replacement, the entry
    map has one property per entry, in array order, mapping the entry's
    name to ["bundle/" + entry]. *)
Theorem build_entry_map_distinct eps :
  NoDup (map entry_name eps) ->
  build_entry_map eps = map (fun ep => (entry_name ep, entry_module ep)) eps.
Proof.
  unfold build_entry_map. intros Hnd.
  enough (forall o, (forall ep, ep ∈ eps -> entry_name ep ∉ obj_keys o) ->
     fold_left (fun m ep => obj_set (entry_name ep) (entry_module ep) m) eps o =
     o ++ map (fun ep => (entry_name ep, entry_module ep)) eps) as H.
  { apply (H []). intros ep _. apply not_elem_of_nil. }
  induction eps as [|ep eps IH]; intros o Ho; simpl; [by rewrite app_nil_r|].
  inversion Hnd as [|? ? Hn Hnd']; subst.
  assert (Hset : obj_set (entry_name ep) (entry_module ep) o = o ++ [(entry_name ep, entry_module ep)]).
  { specialize (Ho ep ltac:(by left)). clear -Ho.
    induction o as [|[k v] o IH]; simpl; [done|].
    unfold obj_keys in Ho; simpl in Ho. apply not_elem_of_cons in Ho as [Hne Ho].
    rewrite decide_False by done. by rewrite IH. }
  rewrite Hset, IH, <- app_assoc; [done|done|].
  intros ep' Hep'. unfold obj_keys. rewrite map_app. simpl.
  rewrite elem_of_app, list_elem_of_singleton. intros [Hin|Heq].
  - apply (Ho ep'); [by right|done].
  - apply Hn. rewrite <- Heq. apply list_elem_of_In, in_map, list_elem_of_In, Hep'.
Qed.

(** The witness: the fifteen entry points of the source have distinct
    names, so [entryPointsMap] has one property per entry. *)
Lemma build_entry_map_distinct_witness :
  NoDup (map entry_name entryPoints) /\
  entryPointsMap = map (fun ep => (entry_name ep, entry_module ep)) entryPoints.
Proof.
  split; [exact entry_names_NoDup|]. apply (build_entry_map_distinct entryPoints entry_names_NoDup).
Defined.

(** C33. The registry does not reject entries whose names collide (the
    specification's [DuplicateEntryName]): whatever the array, the entry
    map has one property per name, and the module of a name is that of the
    last entry with that name, which silently replaces the earlier ones. *)
Theorem build_entry_map_last_wins eps :
  obj_wf (build_entry_map eps) /\
  forall k, obj_get k (build_entry_map eps) =
            assoc_last k (map (fun ep => (entry_name ep, entry_module ep)) eps).
Proof.
  rewrite build_entry_map_set_all. split; [apply obj_set_all_wf, NoDup_nil_2|].
  intros k. rewrite obj_get_set_all. unfold entry_pairs. by destruct (assoc_last _ _).
Qed.

End Entries.
