(* ===== verification/Chunker.v ===== *)
(** * Chunk emission: the [output] options (lines 103-118)

    The configuration names webpack's outputs with three templates:
    [filename: '[chunkhash]-[name].js'] for entry chunks,
    [chunkFilename: '[chunkhash].chunk.js'] for the chunks shared between
    entries, and [sourceMapFilename: '[file].map'] for the source map of
    every emitted script ([devtool: 'source-map'], line 106).  The templates
    are data ([template]) rendered by [render].

    The content hash is an interface: [ChunkHash] is any function from a
    chunk's bytes to a non-empty word of lower-case hexadecimal digits (the
    contract of webpack's [[chunkhash]], an md5 digest in hexadecimal).  The
    list of emitted assets and the check that no two assets share a name
    (the specification's [ChunkNamingCollision], section 4.5) are modelled
    from the specification. *)

From S2P Require Import Prelude JsString JsObject Shim.
Import JsString JsObject Shim.

Module Chunker.

(** ** Templates *)

Inductive segment :=
  | Lit (s : string)
  | ChunkHashSeg
  | NameSeg
  | FileSeg.

Definition template := list segment.

Record tpl_ctx := { ctx_chunkhash : string; ctx_name : string; ctx_file : string }.

Definition segment_value (ctx : tpl_ctx) (seg : segment) : string :=
  match seg with
  | Lit s => s
  | ChunkHashSeg => ctx_chunkhash ctx
  | NameSeg => ctx_name ctx
  | FileSeg => ctx_file ctx
  end.

Fixpoint render (t : template) (ctx : tpl_ctx) : string :=
  match t with
  | [] => ""
  | seg :: t' => segment_value ctx seg +:+ render t' ctx
  end.

(** Line 110. *)
Definition output_filename : template := [ChunkHashSeg; Lit "-"; NameSeg; Lit ".js"].
(** Line 111. *)
Definition output_sourceMapFilename : template := [FileSeg; Lit ".map"].
(** Line 112. *)
Definition output_chunkFilename : template := [ChunkHashSeg; Lit ".chunk.js"].
(** Line 109. *)
Definition output_publicPath : string := "/assets/javascript-bundles/".

(** ** The content hash *)

Class ChunkHash := {
  chunkhash : string -> string;
  chunkhash_hex : forall content, str_forallb is_hex_digit (chunkhash content) = true;
  chunkhash_nonempty : forall content, chunkhash content <> ""
}.

(** ** Chunks and their assets *)

Record chunk := {
  chunk_name : option string;     (** the entry name, for an entry chunk *)
  chunk_content : string;         (** the serialized modules *)
  chunk_sourcemap : string
}.

Definition mk_asset (s : string) : asset := {| source := s; size := String.length s |}.

Section Emit.
Context `{ChunkHash}.

(** The file name of a chunk: [output.filename] for an entry chunk,
    [output.chunkFilename] for a shared chunk. *)
Definition chunk_file (c : chunk) : string :=
  let h := chunkhash (chunk_content c) in
  match chunk_name c with
  | Some n => render output_filename {| ctx_chunkhash := h; ctx_name := n; ctx_file := "" |}
  | None => render output_chunkFilename {| ctx_chunkhash := h; ctx_name := ""; ctx_file := "" |}
  end.

(** [output.sourceMapFilename] for the script [chunk_file c]. *)
Definition map_file (c : chunk) : string :=
  render output_sourceMapFilename {| ctx_chunkhash := ""; ctx_name := ""; ctx_file := chunk_file c |}.

(** Every script, then every source map. *)
Definition emitted_files (cs : list chunk) : list (string * asset) :=
  map (fun c => (chunk_file c, mk_asset (chunk_content c))) cs ++
  map (fun c => (map_file c, mk_asset (chunk_sourcemap c))) cs.

(** The first name that occurs twice. *)
Fixpoint find_dup (l : list string) : option string :=
  match l with
  | [] => None
  | x :: l' => if decide (x ∈ l') then Some x else find_dup l'
  end.

(** Emission: the asset object, or [ChunkNamingCollision] when two assets
    would get the same name. *)
Definition emit_assets (cs : list chunk) : result (obj asset) :=
  let files := emitted_files cs in
  match find_dup (map fst files) with
  | Some f => Err (ChunkNamingCollision f)
  | None => Ok (obj_set_all files [])
  end.

End Emit.

(** ** Lemmas *)

Lemma find_dup_None l : find_dup l = None <-> NoDup l.
Proof.
  induction l as [|x l IH]; simpl; [split; [constructor|done]|].
  rewrite NoDup_cons. case_decide as Hx.
  - split; [discriminate|]. by intros [? _].
  - rewrite IH. tauto.
Qed.

(** If equal images under [f] force equal images under [g], [f] keeps
    the distinctness [g] has. *)
Lemma NoDup_map_factor {A B C} (f : A -> B) (g : A -> C) (l : list A) :
  (forall x y, x ∈ l -> y ∈ l -> f x = f y -> g x = g y) ->
  NoDup (map g l) -> NoDup (map f l).
Proof.
  induction l as [|x l IH]; simpl; [constructor|]. intros Hfg [Hx Hnd]%NoDup_cons.
  constructor.
  - rewrite list_elem_of_In, in_map_iff. intros (y & Hy & Hin). apply Hx.
    rewrite list_elem_of_In, in_map_iff. exists y. split; [|done].
    symmetry. apply Hfg; [by left|by right; apply list_elem_of_In|congruence].
  - apply IH; [|done]. intros; apply Hfg; [by right|by right|done].
Qed.

Section Names.
Context `{ChunkHash}.

Lemma chunk_file_entry c n :
  chunk_name c = Some n ->
  chunk_file c = chunkhash (chunk_content c) +:+ String "-" (n +:+ ".js").
Proof.
  intros Hn. unfold chunk_file. rewrite Hn. simpl.
  by rewrite str_app_nil_r, !str_app_cons, str_app_nil_l.
Qed.

Lemma chunk_file_shared c :
  chunk_name c = None -> chunk_file c = chunkhash (chunk_content c) +:+ ".chunk.js".
Proof. intros Hn. unfold chunk_file. rewrite Hn. simpl. by rewrite str_app_nil_r. Qed.

Lemma map_file_eq c : map_file c = chunk_file c +:+ ".map".
Proof. unfold map_file. simpl. by rewrite str_app_nil_r. Qed.

(** What tells two chunks apart in their file names: the entry name of an
    entry chunk, the hash of a shared chunk. *)
Definition chunk_key (c : chunk) : string + string :=
  match chunk_name c with
  | Some n => inl n
  | None => inr (chunkhash (chunk_content c))
  end.

Lemma chunk_file_inj c1 c2 : chunk_file c1 = chunk_file c2 -> chunk_key c1 = chunk_key c2.
Proof.
  unfold chunk_key.
  pose proof (chunkhash_hex (chunk_content c1)) as Hh1.
  pose proof (chunkhash_hex (chunk_content c2)) as Hh2.
  destruct (chunk_name c1) as [n1|] eqn:E1, (chunk_name c2) as [n2|] eqn:E2; intros Heq.
  - rewrite (chunk_file_entry c1 n1), (chunk_file_entry c2 n2) in Heq by done.
    apply (f_equal span_hex) in Heq. rewrite !span_hex_dash in Heq by done.
    injection Heq as _ Heq. f_equal. by apply str_app_inv_r in Heq.
  - rewrite (chunk_file_entry c1 n1), (chunk_file_shared c2) in Heq by done.
    apply (f_equal span_hex) in Heq. rewrite span_hex_dash, span_hex_stop in Heq by done.
    discriminate.
  - rewrite (chunk_file_shared c1), (chunk_file_entry c2 n2) in Heq by done.
    apply (f_equal span_hex) in Heq. rewrite span_hex_dash, span_hex_stop in Heq by done.
    discriminate.
  - rewrite (chunk_file_shared c1), (chunk_file_shared c2) in Heq by done.
    f_equal. by apply str_app_inv_r in Heq.
Qed.

Lemma chunk_file_js c : ends_with ".js" (chunk_file c) = true.
Proof.
  apply ends_with_spec. destruct (chunk_name c) as [n|] eqn:E.
  - rewrite (chunk_file_entry c n) by done.
    exists (chunkhash (chunk_content c) +:+ String "-" n). by rewrite <- str_app_assoc.
  - rewrite chunk_file_shared by done.
    exists (chunkhash (chunk_content c) +:+ ".chunk"). by rewrite <- str_app_assoc.
Qed.

Lemma map_file_not_js c : ends_with ".js" (map_file c) = false.
Proof. rewrite map_file_eq. apply ends_with_app_false; [reflexivity|simpl; lia]. Qed.

Lemma emitted_names_NoDup cs :
  NoDup (map chunk_key cs) -> NoDup (map fst (emitted_files cs)).
Proof.
  intros Hnd. unfold emitted_files. rewrite map_app, !map_map. simpl.
  assert (Hs : NoDup (map chunk_file cs)).
  { apply (NoDup_map_factor chunk_file chunk_key); [|done]. intros; by apply chunk_file_inj. }
  apply NoDup_app. split; [done|]. split.
  - intros x Hx Hy. apply list_elem_of_In, in_map_iff in Hx as (c1 & <- & _).
    apply list_elem_of_In, in_map_iff in Hy as (c2 & Hy & _).
    pose proof (map_file_not_js c2) as Hm. by rewrite Hy, chunk_file_js in Hm.
  - apply (NoDup_map_factor map_file chunk_file); [|done].
    intros c1 c2 _ _. rewrite !map_file_eq. apply str_app_inv_r.
Qed.

(** Emission succeeds exactly when no two names collide. *)
Lemma emit_assets_Ok cs :
  NoDup (map fst (emitted_files cs)) -> emit_assets cs = Ok (obj_set_all (emitted_files cs) []).
Proof. intros Hnd. unfold emit_assets. by rewrite (proj2 (find_dup_None _) Hnd). Qed.

Lemma emit_assets_Ok_inv cs o :
  emit_assets cs = Ok o -> o = obj_set_all (emitted_files cs) [].
Proof. unfold emit_assets. destruct (find_dup _); [discriminate|]. by intros [= <-]. Qed.

(** Every emitted name is flat when the entry names are. *)
Lemma emitted_no_slash cs k :
  (forall c n, c ∈ cs -> chunk_name c = Some n -> str_has "/" n = false) ->
  k ∈ map fst (emitted_files cs) -> str_has "/" k = false.
Proof.
  intros Hn Hk. unfold emitted_files in Hk. rewrite map_app, !map_map, elem_of_app in Hk.
  assert (Hc : forall c, c ∈ cs -> str_has "/" (chunk_file c) = false).
  { intros c Hc. pose proof (chunkhash_hex (chunk_content c)) as Hh.
    destruct (chunk_name c) as [n|] eqn:E.
    - rewrite (chunk_file_entry c n), str_has_app, hex_no_char, str_has_cons, str_has_app by done.
      by rewrite (Hn c n Hc E).
    - by rewrite chunk_file_shared, str_has_app, hex_no_char. }
  destruct Hk as [Hk|Hk]; apply list_elem_of_In, in_map_iff in Hk as (c & <- & Hin);
    apply list_elem_of_In in Hin; simpl.
  - by apply Hc.
  - rewrite map_file_eq, str_has_app. by rewrite Hc.
Qed.

End Names.

(** ** Properties of emission *)

Section EmitProps.
Context `{ChunkHash}.

(** C14. Emission never collides when the entry chunks have distinct names
    and the shared chunks distinct hashes: the templates of lines 110-112
    keep entry scripts, shared chunks and source maps apart. *)
Theorem emit_assets_no_collision cs :
  NoDup (map chunk_key cs) -> emit_assets cs = Ok (obj_set_all (emitted_files cs) []).
Proof. intros Hnd. by apply emit_assets_Ok, emitted_names_NoDup. Qed.

End EmitProps.

(** ** Round trip with the regular expression of line 70 *)

(** C13. Round trip between the two halves of the naming scheme: the
    hash and the name that [output.filename] (line 110) renders into a
    file name are exactly what the regular expression of line 70 captures
    from it, for every non-empty hexadecimal hash and every name without a
    line terminator. *)
Theorem output_filename_roundtrip h n :
  h <> "" -> str_forallb is_hex_digit h = true ->
  str_forallb (fun c => negb (is_line_terminator c)) n = true ->
  match_hashed (render output_filename {| ctx_chunkhash := h; ctx_name := n; ctx_file := "" |}) =
    Some (h, n +:+ ".js").
Proof.
  intros Hne Hh Hn. apply match_hashed_complete. split; [|split; [done|split; [done|split]]].
  - simpl. by rewrite str_app_nil_r, !str_app_cons, str_app_nil_l.
  - rewrite str_forallb_app, Hn. reflexivity.
  - by exists n.
Qed.

Lemma output_filename_roundtrip_witness :
  match_hashed (render output_filename {| ctx_chunkhash := "0a1b"; ctx_name := "Welcome-show"; ctx_file := "" |}) =
    Some ("0a1b", "Welcome-show" +:+ ".js").
Proof. apply output_filename_roundtrip; [discriminate|reflexivity|reflexivity]. Defined.

(** ** An instance of the hash interface, for the witnesses

    A checksum of the bytes modulo 4093, written as three hexadecimal
    digits. *)

Definition hex_char (n : nat) : ascii :=
  if n <? 10 then ascii_of_nat (48 + n) else ascii_of_nat (87 + n).

Lemma hex_char_hex n : n < 16 -> is_hex_digit (hex_char n) = true.
Proof. intros Hn. do 16 (destruct n as [|n]; [reflexivity|]). lia. Qed.

Fixpoint checksum (s : string) : nat :=
  match s with
  | EmptyString => 0
  | String c s' => (nat_of_ascii c + 31 * checksum s') mod 4093
  end.

Definition sum_hash (s : string) : string :=
  let n := checksum s in
  String (hex_char (n / 256 mod 16))
    (String (hex_char (n / 16 mod 16)) (String (hex_char (n mod 16)) "")).

Lemma sum_hash_hex s : str_forallb is_hex_digit (sum_hash s) = true.
Proof.
  unfold sum_hash. cbn [str_forallb].
  rewrite !hex_char_hex; [done|..]; apply Nat.mod_upper_bound; lia.
Qed.

#[export] Instance sum_chunk_hash : ChunkHash :=
  {| chunkhash := sum_hash; chunkhash_hex := sum_hash_hex;
     chunkhash_nonempty := fun s => ltac:(discriminate) |}.

Definition home_chunk : chunk :=
  {| chunk_name := Some "home"; chunk_content := "console.log(1)"; chunk_sourcemap := "{}" |}.
Definition shared_chunk : chunk :=
  {| chunk_name := None; chunk_content := "var shared"; chunk_sourcemap := "{}" |}.
Definition sample_chunks : list chunk := [home_chunk; shared_chunk].

Lemma emit_assets_no_collision_witness :
  emit_assets sample_chunks = Ok (obj_set_all (emitted_files sample_chunks) []).
Proof. apply emit_assets_no_collision. by_decide. Defined.

End Chunker.
