(* ===== verification/Pipeline.v ===== *)
(** * The whole build and Play's lookup

    [build] composes the components the way a webpack run with this
    configuration does: the entry chunks named by [entryPointsMap] and the
    shared chunks are emitted under the [output] templates ([Chunker]), then
    the emit hook adds the sidecars ([Shim]).  The bytes of each entry's
    chunk are the parameter [bundle]; [Bundle] instantiates it with the
    graph, transforms and serialization of the entry.

    [play_versioned_path] is Play's [AssetsFinder] as the comment of lines
    42-44 describes it: for [[dirname]/[basename].js] it reads
    [[dirname]/[basename].js.md5] (with the reader it is given) and serves
    [[dirname]/[md5]-[basename].js], and serves the plain name when there
    is no [.md5] file.

    The main theorem is the end-to-end contract of the configuration on
    the asset object: after a build, Play's lookup of [<name>.js] for every
    entry of [entryPoints] serves that entry's hashed bundle. *)

From S2P Require Import Prelude JsString JsObject Shim Entries Chunker.
Import JsString JsObject Shim Entries Chunker.

Module Pipeline.

(** ** Play's lookup *)

(** The path Play serves for [file], reading the [.md5] file with [read]. *)
Definition play_versioned_path (read : string -> option string) (file : string) : string :=
  let dir := js_dirname file in
  let base := js_basename file in
  let prefix := if decide (dir = "") then "" else dir +:+ "/" in
  match read (prefix +:+ base +:+ ".md5") with
  | Some md5 => prefix +:+ md5 +:+ String "-" base
  | None => file
  end.

(** Play's lookup among the assets of a build. *)
Definition play_serve (assets : obj asset) (file : string) : option asset :=
  obj_get (play_versioned_path (fun k => source <$> obj_get k assets) file) assets.

(** ** The build *)

Section Build.
Context `{ChunkHash}.

(** The transformed, serialized modules of the chunk of an entry (its
    name and module), and their source map. *)
Variable bundle : string * string -> string * string.

Definition entry_chunk (entry : string * string) : chunk :=
  {| chunk_name := Some entry.1;
     chunk_content := (bundle entry).1;
     chunk_sourcemap := (bundle entry).2 |}.

Definition build (entries : obj string) (shared : list chunk) : result (obj asset) :=
  let! assets := emit_assets (map entry_chunk entries ++ shared) in
  Ok (redirect_emit assets).

(** ** Lemmas *)

(** A name fit for the hashed template: no ['/'], no line terminator. *)
Definition name_ok (n : string) : Prop :=
  str_has "/" n = false /\ str_forallb (fun c => negb (is_line_terminator c)) n = true.

Lemma play_versioned_path_flat read file :
  str_has "/" file = false ->
  play_versioned_path read file =
  match read (file +:+ ".md5") with
  | Some md5 => md5 +:+ String "-" file
  | None => file
  end.
Proof.
  intros Hf. unfold play_versioned_path, js_dirname.
  rewrite js_basename_nosep, js_split_nosep by done. simpl. done.
Qed.

Lemma entry_keys_NoDup shared :
  Forall (fun c => chunk_name c = None) shared ->
  NoDup (map (fun c => chunkhash (chunk_content c)) shared) ->
  NoDup (map chunk_key (map entry_chunk entryPointsMap ++ shared)).
Proof.
  intros Hsh Hnd. rewrite map_app, entryPointsMap_eq, !map_map. apply NoDup_app. split; [|split].
  - apply (NoDup_map_factor _ entry_name); [|exact entry_names_NoDup].
    intros x y _ _. unfold chunk_key. simpl. congruence.
  - intros k Hk1 Hk2. apply list_elem_of_In, in_map_iff in Hk1 as (ep & <- & _).
    apply list_elem_of_In, in_map_iff in Hk2 as (c & Hc & Hin).
    apply list_elem_of_In in Hin. rewrite Forall_forall in Hsh.
    unfold chunk_key in Hc. rewrite (Hsh c Hin) in Hc. discriminate.
  - apply (NoDup_map_factor _ (fun c => chunkhash (chunk_content c))); [|done].
    intros x y Hx Hy. rewrite Forall_forall in Hsh. unfold chunk_key.
    rewrite (Hsh x Hx), (Hsh y Hy). congruence.
Qed.

(** Every sidecar the hook derives from an emission comes from an entry
    script [h-n.js] and is [n.js.md5] holding [h]. *)
Lemma emitted_sidecar cs f a :
  (forall c n, c ∈ cs -> chunk_name c = Some n -> name_ok n) ->
  f ∈ obj_keys (obj_set_all (emitted_files cs) []) -> fake_md5_of f = Some a ->
  exists c n, c ∈ cs /\ chunk_name c = Some n /\
    fm_filename a = (n +:+ ".js") +:+ ".md5" /\ fm_contents a = chunkhash (chunk_content c).
Proof.
  intros Hok Hf Ha. apply elem_of_obj_keys_set_all in Hf as [Hf|Hf]; [by apply elem_of_nil in Hf|].
  unfold emitted_files in Hf. rewrite map_app, !map_map, elem_of_app in Hf. simpl in Hf.
  destruct Hf as [Hf|Hf]; apply list_elem_of_In, in_map_iff in Hf as (c & <- & Hc);
    apply list_elem_of_In in Hc.
  - destruct (chunk_name c) as [n|] eqn:En.
    + destruct (Hok c n Hc En) as [Hn1 Hn2]. exists c, n. do 2 (split; [done|]).
      rewrite (chunk_file_entry c n) in Ha by done.
      rewrite fake_md5_of_hashed in Ha.
      * by injection Ha as <-.
      * apply chunkhash_nonempty.
      * apply chunkhash_hex.
      * by rewrite str_has_app, Hn1.
      * by rewrite str_forallb_app, Hn2.
      * by exists n.
    + assert (Hs : sidecar_name (chunk_file c) = None).
      { rewrite chunk_file_shared by done. apply sidecar_name_chunk, chunkhash_hex. }
      unfold sidecar_name in Hs. by rewrite Ha in Hs.
  - assert (Hs : sidecar_name (map_file c) = None) by (rewrite map_file_eq; apply sidecar_name_map).
    unfold sidecar_name in Hs. by rewrite Ha in Hs.
Qed.

Lemma entry_chunks_ok shared c n :
  Forall (fun c => chunk_name c = None) shared ->
  c ∈ map entry_chunk entryPointsMap ++ shared -> chunk_name c = Some n ->
  exists ep, ep ∈ entryPoints /\ n = entry_name ep /\ c = entry_chunk (entry_name ep, entry_module ep).
Proof.
  intros Hsh Hc Hn. rewrite Forall_forall in Hsh. apply elem_of_app in Hc as [Hc|Hc].
  - rewrite entryPointsMap_eq, map_map in Hc.
    apply list_elem_of_In, in_map_iff in Hc as (ep & <- & Hep). simpl in Hn. injection Hn as <-.
    exists ep. by rewrite list_elem_of_In.
  - by rewrite (Hsh c Hc) in Hn.
Qed.

Lemma entry_names_ok shared c n :
  Forall (fun c => chunk_name c = None) shared ->
  c ∈ map entry_chunk entryPointsMap ++ shared -> chunk_name c = Some n -> name_ok n.
Proof.
  intros Hsh Hc Hn. destruct (entry_chunks_ok shared c n Hsh Hc Hn) as (ep & Hep & -> & _).
  split; [apply entry_name_no_slash | by apply entryPoints_printable].
Qed.

Lemma entry_chunk_in shared ep :
  ep ∈ entryPoints -> entry_chunk (entry_name ep, entry_module ep) ∈ map entry_chunk entryPointsMap ++ shared.
Proof.
  intros Hep. apply elem_of_app. left. rewrite entryPointsMap_eq, map_map.
  apply list_elem_of_In, in_map_iff. exists ep. split; [done|]. by apply list_elem_of_In.
Qed.

Lemma chunk_file_in_emitted cs c : c ∈ cs -> (chunk_file c, mk_asset (chunk_content c)) ∈ emitted_files cs.
Proof.
  intros Hc. unfold emitted_files. apply elem_of_app. left.
  apply list_elem_of_In, in_map_iff. exists c. split; [done|]. by apply list_elem_of_In.
Qed.

(** After the build, the sidecar of an entry holds the hash of its chunk. *)
Lemma entry_sidecar shared ep :
  Forall (fun c => chunk_name c = None) shared -> ep ∈ entryPoints ->
  let cs := map entry_chunk entryPointsMap ++ shared in
  let h := chunkhash (chunk_content (entry_chunk (entry_name ep, entry_module ep))) in
  obj_get ((entry_name ep +:+ ".js") +:+ ".md5") (redirect_emit (obj_set_all (emitted_files cs) [])) =
    Some {| source := h; size := String.length h |}.
Proof.
  intros Hsh Hep cs h. set (c := entry_chunk (entry_name ep, entry_module ep)).
  assert (Hok : forall c n, c ∈ cs -> chunk_name c = Some n -> name_ok n).
  { intros c' n. by apply entry_names_ok. }
  pose proof (entry_chunk_in shared ep Hep) as Hc.
  unfold_emit. rewrite obj_get_set_all, (sidecar_assoc_unique _ h); [done| |].
  - exists (chunk_file c). split.
    { apply elem_of_obj_keys_set_all. right. apply list_elem_of_In, in_map_iff.
      exists (chunk_file c, mk_asset (chunk_content c)). split; [done|].
      by apply list_elem_of_In, chunk_file_in_emitted. }
    unfold sidecar_name. destruct (Hok c (entry_name ep) Hc eq_refl) as [Hn1 Hn2].
    rewrite (chunk_file_entry c (entry_name ep)) by done.
    rewrite fake_md5_of_hashed; [done|apply chunkhash_nonempty|apply chunkhash_hex|..].
    + by rewrite str_has_app, Hn1.
    + by rewrite str_forallb_app, Hn2.
    + by exists (entry_name ep).
  - intros f a Hf Ha Hk.
    destruct (emitted_sidecar cs f a Hok Hf Ha) as (c' & n & Hc' & Hn & Hk' & ->).
    rewrite Hk' in Hk. do 2 apply str_app_inv_r in Hk. subst n.
    destruct (entry_chunks_ok shared c' _ Hsh Hc' Hn) as (ep' & Hep' & Hname & ->).
    by apply (NoDup_map_inj_in _ _ _ _ entry_names_NoDup Hep Hep') in Hname as ->.
Qed.

(** Play's lookup of an entry's script among the assets of the emission
    after the hook serves the entry's bundle. *)
Lemma emitted_serves shared ep :
  Forall (fun c => chunk_name c = None) shared ->
  NoDup (map (fun c => chunkhash (chunk_content c)) shared) -> ep ∈ entryPoints ->
  play_serve (redirect_emit (obj_set_all (emitted_files (map entry_chunk entryPointsMap ++ shared)) []))
    (entry_name ep +:+ ".js") = Some (mk_asset (bundle (entry_name ep, entry_module ep)).1).
Proof.
  intros Hsh Hnd Hep.
  assert (Hnd' : NoDup (map fst (emitted_files (map entry_chunk entryPointsMap ++ shared)))).
  { by apply emitted_names_NoDup, entry_keys_NoDup. }
  set (c := entry_chunk (entry_name ep, entry_module ep)).
  unfold play_serve. rewrite play_versioned_path_flat, entry_sidecar by
    (done || by rewrite str_has_app, entry_name_no_slash).
  cbn [fmap option_fmap option_map source]. rewrite <- (chunk_file_entry c (entry_name ep)) by done.
  unfold_emit. rewrite sidecars_get_other.
  - apply obj_get_set_all_NoDup; [done|]. by apply chunk_file_in_emitted, entry_chunk_in.
  - intros f _ Hs. apply sidecar_name_not_js in Hs. by rewrite chunk_file_js in Hs.
Qed.

(** Every name of the emission after the hook is flat. *)
Lemma emitted_flat shared k :
  Forall (fun c => chunk_name c = None) shared ->
  k ∈ obj_keys (redirect_emit (obj_set_all (emitted_files (map entry_chunk entryPointsMap ++ shared)) [])) ->
  str_has "/" k = false.
Proof.
  intros Hsh Hk. set (cs := map entry_chunk entryPointsMap ++ shared).
  assert (Hok : forall c n, c ∈ cs -> chunk_name c = Some n -> name_ok n).
  { intros c' n. by apply entry_names_ok. }
  unfold redirect_emit in Hk.
  rewrite collect_fake_md5_omap, add_fake_md5_set_all, elem_of_obj_keys_set_all in Hk.
  destruct Hk as [Hk|Hk].
  - apply (emitted_no_slash cs); [intros c n Hc Hn; by apply (Hok c n)|].
    apply elem_of_obj_keys_set_all in Hk as [Hk|Hk]; [by apply elem_of_nil in Hk|done].
  - apply sidecar_keys_In in Hk as (f & Hf & Hs). unfold sidecar_name in Hs.
    destruct (fake_md5_of f) as [a|] eqn:Ha; [|done]. injection Hs as <-.
    destruct (emitted_sidecar cs f a Hok Hf Ha) as (c & n & Hc & Hn & -> & _).
    destruct (Hok c n Hc Hn) as [Hn1 _]. by rewrite !str_has_app, Hn1.
Qed.

(** ** The end-to-end contract *)

(** C2. For the entries of the source and any shared chunks with distinct
    hashes, the build succeeds, and for every entry [ep] Play's lookup of
    [<entry_name ep>.js] reads the sidecar and serves the hashed bundle of
    [bundle/<ep>]: the configuration meets the host framework's contract. *)
Theorem build_serves_every_entry shared :
  Forall (fun c => chunk_name c = None) shared ->
  NoDup (map (fun c => chunkhash (chunk_content c)) shared) ->
  exists out, build entryPointsMap shared = Ok out /\
    forall ep, ep ∈ entryPoints ->
      play_serve out (entry_name ep +:+ ".js") = Some (mk_asset (bundle (entry_name ep, entry_module ep)).1).
Proof.
  intros Hsh Hnd.
  exists (redirect_emit (obj_set_all (emitted_files (map entry_chunk entryPointsMap ++ shared)) [])).
  split; [|by intros ep; apply emitted_serves].
  unfold build. rewrite emit_assets_Ok; [done|]. by apply emitted_names_NoDup, entry_keys_NoDup.
Qed.

(** C12. Every asset of a successful build, sidecars included, has a flat
    name (no ['/']): the whole output fits Play's single-directory lookup. *)
Theorem build_flat shared out k :
  Forall (fun c => chunk_name c = None) shared ->
  build entryPointsMap shared = Ok out -> k ∈ obj_keys out -> str_has "/" k = false.
Proof.
  intros Hsh Hb. unfold build in Hb.
  destruct (emit_assets _) as [A|] eqn:Ha; [|discriminate]. injection Hb as <-.
  apply emit_assets_Ok_inv in Ha as ->. by apply emitted_flat.
Qed.

End Build.

(** ** Witnesses *)

Lemma build_serves_every_entry_witness :
  exists out, build (fun e => (e.2, "{}")) entryPointsMap [shared_chunk] = Ok out /\
    forall ep, ep ∈ entryPoints ->
      play_serve out (entry_name ep +:+ ".js") = Some (mk_asset (entry_module ep, "{}").1).
Proof. apply build_serves_every_entry; [repeat constructor | by_decide]. Defined.

Definition sample_bundle (e : string * string) : string * string := (e.2, "{}").

Definition sample_build : obj asset :=
  redirect_emit (obj_set_all (emitted_files (map (entry_chunk sample_bundle) entryPointsMap ++ [shared_chunk])) []).

Lemma sample_build_eq : build sample_bundle entryPointsMap [shared_chunk] = Ok sample_build.
Proof.
  unfold build, sample_build. rewrite emit_assets_Ok; [reflexivity|].
  apply emitted_names_NoDup, entry_keys_NoDup; repeat constructor; by intros ?%elem_of_nil.
Qed.

Lemma build_flat_witness :
  str_has "/" (chunk_file (entry_chunk sample_bundle (entry_name "Welcome/show", entry_module "Welcome/show"))) = false.
Proof.
  apply (build_flat sample_bundle [shared_chunk] sample_build); [repeat constructor|apply sample_build_eq|].
  unfold sample_build, redirect_emit. rewrite collect_fake_md5_omap, add_fake_md5_set_all.
  apply elem_of_obj_keys_set_all. left. apply elem_of_obj_keys_set_all. right.
  set (c := entry_chunk sample_bundle (entry_name "Welcome/show", entry_module "Welcome/show")).
  apply list_elem_of_In, in_map_iff. exists (chunk_file c, mk_asset (chunk_content c)).
  split; [done|]. apply list_elem_of_In, chunk_file_in_emitted, entry_chunk_in. by_decide.
Defined.

End Pipeline.
