(* ===== verification/Alias.v ===== *)
(** * Module resolution: [resolve.alias], [resolve.modules], [resolve.extensions]

    Lines 155-188 configure how webpack resolves an import specifier.  The
    alias object (lines 158-187) is an ordered table; webpack's alias
    plugin walks it in key order and applies the first entry whose name is
    the whole specifier or a leading path segment of it ([name] or
    [name/...]), replacing that segment by the entry's target, unless the
    specifier already lies under the target.  The aliased request is then
    looked up in the directories of [resolve.modules] (line 157), searched
    like [node_modules] in the importer's directory and each of its
    ancestors up to [context], as is and with each extension of
    [resolve.extensions] (line 156), in order; a relative request is looked
    up next to the importing module.  No match
    is the specification's [UnresolvedSpecifier].

    The resolution algorithm is webpack's (not in this repository) and is
    modelled from the specification (section 4.1), with the whole-segment
    reading of "prefix" that webpack uses; the table, the directories and
    the extensions are the source's.  Webpack's resolution of a directory
    (its [index.js], or the [main] of its [package.json]) is not modelled:
    the specification does not describe it. *)

From stdpp Require Import gmap.
From S2P Require Import Prelude JsString.
Import JsString.

Module Alias.

(** ** Data of the configuration *)

(** Lines 158-187, in declaration order. *)
Definition alias_table : list (string * string) := [
  ("backbone", "vendor/backbone");
  ("backform", "vendor/backform");
  ("backgrid", "vendor/backgrid");
  ("base64", "vendor/base64");
  ("bootstrap-alert", "vendor/bootstrap-alert");
  ("bootstrap-collapse", "vendor/bootstrap-collapse");
  ("bootstrap-dropdown", "vendor/bootstrap-dropdown");
  ("bootstrap-modal", "vendor/bootstrap-modal");
  ("bootstrap-popover", "vendor/bootstrap-popover");
  ("bootstrap-tab", "vendor/bootstrap-tab");
  ("bootstrap-toggle", "vendor/bootstrap-toggle");
  ("bootstrap-tooltip", "vendor/bootstrap-tooltip");
  ("bootstrap-transition", "vendor/bootstrap-transition");
  ("html5sortable", "vendor/html5sortable-0-6-1");
  ("jquery", "vendor/jquery-2-1-0");
  ("jquery.mousewheel", "vendor/jquery.mousewheel");
  ("jquery.validate", "vendor/jquery.validate");
  ("mass-upload", "vendor/mass-upload");
  ("md5", "vendor/md5");
  ("select2", "vendor/select2");
  ("sha1", "vendor/git-sha1");
  ("spectrum", "vendor/spectrum");
  ("tinycolor", "vendor/tinycolor");
  ("typeahead", "vendor/typeahead.jquery");
  ("underscore", "vendor/underscore");
  ("oboe", "vendor/oboe-browser-2-1-3");
  ("MassUpload", "vendor/mass-upload")].

(** Line 156. *)
Definition resolve_extensions : list string := [".js"; ".coffee"].

(** Line 157, relative to the [context] of line 104. *)
Definition resolve_modules : list string := ["."; "node_modules"].

(** ** String helpers: [startsWith] and [substr] *)

Fixpoint starts_with (p s : string) : bool :=
  match p, s with
  | EmptyString, _ => true
  | String c p', String d s' => Ascii.eqb c d && starts_with p' s'
  | String _ _, EmptyString => false
  end.

Fixpoint str_drop (n : nat) (s : string) : string :=
  match n, s with
  | 0, _ => s
  | S n', String _ s' => str_drop n' s'
  | S _, EmptyString => EmptyString
  end.

(** ** The alias step *)

(** [request === item.name || startsWith(request, item.name + "/")]. *)
Definition alias_matches (name request : string) : bool :=
  String.eqb request name || starts_with (name +:+ "/") request.

(** The entry applies: it matches, and the request is not already under
    the target. *)
Definition alias_applies (item : string * string) (request : string) : bool :=
  alias_matches item.1 request &&
  negb (String.eqb request item.2 || starts_with (item.2 +:+ "/") request).

(** [item.alias + request.substr(item.name.length)]. *)
Definition alias_rewrite (item : string * string) (request : string) : string :=
  item.2 +:+ str_drop (String.length item.1) request.

Fixpoint resolve_alias (table : list (string * string)) (request : string) : string :=
  match table with
  | [] => request
  | item :: table' =>
      if alias_applies item request then alias_rewrite item request
      else resolve_alias table' request
  end.

(** A table no two entries of which can match the same request: distinct
    names, none a leading segment of another (the validation section 9 of
    the specification asks for). *)
Definition alias_wf (table : list (string * string)) : Prop :=
  NoDup (map fst table) /\
  forall k1 k2, k1 ∈ map fst table -> k2 ∈ map fst table -> starts_with (k1 +:+ "/") k2 = false.

Definition alias_wfb (table : list (string * string)) : bool :=
  bool_decide (NoDup (map fst table)) &&
  forallb (fun k1 => forallb (fun k2 => negb (starts_with (k1 +:+ "/") k2)) (map fst table))
          (map fst table).

(** ** Lookup in the file system *)

Definition is_relative (request : string) : bool :=
  starts_with "./" request || starts_with "../" request.

(** [path.normalize] on a path relative to the [context] directory:
    empty and ["."] segments vanish, [".."] drops the previous one. *)
Fixpoint normalize_segments (stack segs : list string) : list string :=
  match segs with
  | [] => rev stack
  | seg :: segs' =>
      if decide (seg = "" \/ seg = ".") then normalize_segments stack segs'
      else if decide (seg = "..") then normalize_segments (tail stack) segs'
      else normalize_segments (seg :: stack) segs'
  end.

Definition path_norm (p : string) : string := js_join "/" (normalize_segments [] (js_split "/" p)).

(** A path none of whose segments is empty, ["."] or [".."]: what
    [path_norm] leaves as it is. *)
Definition clean_seg (seg : string) : bool :=
  negb (String.eqb seg "" || String.eqb seg "." || String.eqb seg "..").

Definition clean_path (p : string) : bool := forallb clean_seg (js_split "/" p).

(** The directory of the importer and its ancestors up to [context],
    deepest first: a relative entry of [resolve.modules] is searched in
    each of them, like [node_modules]. *)
Definition ancestors (dir : string) : list string :=
  let segs := normalize_segments [] (js_split "/" dir) in
  map (fun n => js_join "/" (take n segs)) (rev (seq 0 (S (length segs)))).

(** The paths tried, in order: for a relative request, the path next to
    the importer; otherwise, for each ancestor and each directory of
    [resolve.modules]; each as is, then with each extension. *)
Definition candidates (importer_dir request : string) : list string :=
  let bases :=
    if is_relative request then [path_norm (importer_dir +:+ "/" +:+ request)]
    else flat_map (fun a => map (fun m => path_norm (a +:+ "/" +:+ m +:+ "/" +:+ request))
                                resolve_modules)
                  (ancestors importer_dir) in
  flat_map (fun b => b :: map (fun e => b +:+ e) resolve_extensions) bases.

Definition resolve_request (fs : gset string) (importer importer_dir specifier : string) :
    result string :=
  let request := resolve_alias alias_table specifier in
  match list_find (fun p => p ∈ fs) (candidates importer_dir request) with
  | Some (_, p) => Ok p
  | None => Err (UnresolvedSpecifier specifier importer)
  end.

(** ** String lemmas *)

Lemma starts_with_spec p s : starts_with p s = true <-> exists x, s = p +:+ x.
Proof.
  revert s. induction p as [|c p IH]; intros [|d s]; simpl.
  - split; [by exists ""|done].
  - split; [by exists (String d s)|done].
  - split; [done|]. by intros [x Hx].
  - rewrite andb_true_iff, IH. split.
    + intros [Hcd%Ascii.eqb_eq [x ->]]. subst. by exists x.
    + intros [x Hx]. rewrite str_app_cons in Hx. injection Hx as -> ->.
      split; [apply Ascii.eqb_refl | by exists x].
Qed.

Lemma str_drop_app a b : str_drop (String.length a) (a +:+ b) = b.
Proof. induction a as [|c a IH]; [done|]. rewrite str_app_cons. apply IH. Qed.

Lemma str_app_eq_app a b c d :
  a +:+ b = c +:+ d ->
  exists m, (c = a +:+ m /\ b = m +:+ d) \/ (a = c +:+ m /\ d = m +:+ b).
Proof.
  revert c. induction a as [|x a IH]; intros c H.
  - exists c. left. by rewrite str_app_nil_l in H.
  - destruct c as [|y c].
    + exists (String x a). right. rewrite str_app_nil_l in H. by rewrite <- H.
    + rewrite !str_app_cons in H. injection H as -> H.
      destruct (IH c H) as (m & [[-> ->]|[-> ->]]); exists m; [left|right]; done.
Qed.

(** Two words without [c], each followed by [c], are equal when the
    results agree. *)
Lemma str_first_sep c a b x y :
  str_has c a = false -> str_has c b = false ->
  a +:+ String c x = b +:+ String c y -> a = b.
Proof.
  revert b. induction a as [|d a IH]; intros [|e b] Ha Hb H.
  - done.
  - rewrite str_app_nil_l, str_app_cons in H. injection H as -> _.
    by rewrite str_has_cons, Ascii.eqb_refl in Hb.
  - rewrite str_app_nil_l, str_app_cons in H. injection H as -> _.
    by rewrite str_has_cons, Ascii.eqb_refl in Ha.
  - rewrite !str_app_cons in H. injection H as -> H.
    rewrite str_has_cons in Ha, Hb. apply orb_false_iff in Ha as [_ Ha].
    apply orb_false_iff in Hb as [_ Hb]. f_equal. by apply IH.
Qed.

(** ** Matching *)

Lemma alias_matches_spec n r :
  alias_matches n r = true <-> exists t, r = n +:+ t /\ (t = "" \/ exists x, t = String "/" x).
Proof.
  unfold alias_matches. rewrite orb_true_iff, String.eqb_eq, starts_with_spec. split.
  - intros [->|[x ->]].
    + exists "". split; [by rewrite str_app_nil_r | by left].
    + exists (String "/" x). rewrite <- str_app_assoc. split; [done|eauto].
  - intros (t & -> & [->|[x ->]]).
    + left. apply str_app_nil_r.
    + right. exists x. by rewrite <- str_app_assoc.
Qed.

(** Two names matching the same request are equal, or one is a leading
    segment of the other. *)
Lemma alias_overlap n1 n2 r :
  alias_matches n1 r = true -> alias_matches n2 r = true ->
  n1 = n2 \/ starts_with (n1 +:+ "/") n2 = true \/ starts_with (n2 +:+ "/") n1 = true.
Proof.
  intros (t1 & -> & Ht1)%alias_matches_spec (t2 & H & Ht2)%alias_matches_spec.
  destruct (str_app_eq_app _ _ _ _ H) as ([|z m] & [[-> Ht]|[-> Ht]]).
  - left. symmetry. apply str_app_nil_r.
  - left. apply str_app_nil_r.
  - right; left. apply starts_with_spec. rewrite str_app_cons in Ht.
    destruct Ht1 as [->|[x ->]]; [done|]. injection Ht as -> _.
    exists m. by rewrite <- str_app_assoc.
  - right; right. apply starts_with_spec. rewrite str_app_cons in Ht.
    destruct Ht2 as [->|[x ->]]; [done|]. injection Ht as -> _.
    exists m. by rewrite <- str_app_assoc.
Qed.

Lemma alias_wf_unique t r x y :
  alias_wf t -> x ∈ t -> y ∈ t -> alias_matches x.1 r = true -> alias_matches y.1 r = true -> x = y.
Proof.
  intros [Hnd Hseg] Hx Hy Hmx Hmy.
  assert (Hkx : x.1 ∈ map fst t) by (apply list_elem_of_In, in_map, list_elem_of_In, Hx).
  assert (Hky : y.1 ∈ map fst t) by (apply list_elem_of_In, in_map, list_elem_of_In, Hy).
  destruct (alias_overlap _ _ _ Hmx Hmy) as [Heq|[Hs|Hs]].
  - by apply (NoDup_map_inj_in fst t).
  - by rewrite Hseg in Hs.
  - by rewrite Hseg in Hs.
Qed.

Lemma alias_applies_matches x r : alias_applies x r = true -> alias_matches x.1 r = true.
Proof. unfold alias_applies. by intros [? _]%andb_true_iff. Qed.

Lemma resolve_alias_unique t r x :
  x ∈ t -> alias_applies x r = true -> (forall y, y ∈ t -> alias_applies y r = true -> y = x) ->
  resolve_alias t r = alias_rewrite x r.
Proof.
  induction t as [|y t IH]; simpl; [by intros ?%elem_of_nil|].
  intros Hx Hax Huniq. case_bool (alias_applies y r).
  - by rewrite (Huniq y ltac:(by left) E).
  - apply elem_of_cons in Hx as [->|Hx]; [congruence|].
    apply IH; [done|done|]. intros z Hz. apply Huniq. by right.
Qed.

Lemma resolve_alias_none t r : (forall y, y ∈ t -> alias_applies y r = false) -> resolve_alias t r = r.
Proof.
  induction t as [|y t IH]; simpl; [done|]. intros Hn.
  rewrite (Hn y) by (by left). apply IH. intros z Hz. apply Hn. by right.
Qed.

(** In a well-formed table the order of the entries does not matter. *)
Lemma resolve_alias_perm t1 t2 r :
  Permutation t1 t2 -> alias_wf t1 -> resolve_alias t1 r = resolve_alias t2 r.
Proof.
  intros Hp Hwf.
  assert (Hin : forall x, x ∈ t1 <-> x ∈ t2).
  { intros x. rewrite !list_elem_of_In. split; apply Permutation_in; [done|by symmetry]. }
  destruct (list_find (fun x => alias_applies x r = true) t1) as [[i x]|] eqn:E.
  - apply list_find_Some in E as (Hi & Hax & _). apply list_elem_of_lookup_2 in Hi.
    assert (Huniq : forall y, y ∈ t1 -> alias_applies y r = true -> y = x).
    { intros y Hy Hay. apply (alias_wf_unique t1 r); [done..|by apply alias_applies_matches|].
      by apply alias_applies_matches. }
    rewrite !(resolve_alias_unique _ r x); try done.
    + by apply Hin.
    + intros y Hy. apply Huniq. by apply Hin.
  - apply list_find_None in E. rewrite !resolve_alias_none; [done| |].
    + intros y Hy. apply Hin in Hy. rewrite Forall_forall in E. apply not_true_iff_false. by apply E.
    + intros y Hy. rewrite Forall_forall in E. apply not_true_iff_false. by apply E.
Qed.

(** ** Facts about the source's table *)

Lemma alias_wfb_sound t : alias_wfb t = true -> alias_wf t.
Proof.
  unfold alias_wfb. intros [Hnd Hall]%andb_true_iff. split; [by apply bool_decide_eq_true in Hnd|].
  intros k1 k2 Hk1 Hk2. rewrite forallb_forall in Hall.
  specialize (Hall k1 (proj1 (list_elem_of_In _ _) Hk1)). rewrite forallb_forall in Hall.
  apply negb_true_iff, Hall, list_elem_of_In, Hk2.
Qed.

Lemma alias_table_wf : alias_wf alias_table.
Proof. apply alias_wfb_sound. vm_compute. reflexivity. Qed.

(** Every name is one path segment other than ["vendor"], and every target
    lies under ["vendor/"]. *)
Lemma alias_table_shape kv :
  kv ∈ alias_table ->
  str_has "/" kv.1 = false /\ kv.1 <> "vendor" /\ exists w, kv.2 = "vendor" +:+ String "/" w.
Proof. intros Hkv. in_cases Hkv; (split; [reflexivity|split; [discriminate|eexists; reflexivity]]). Qed.

Lemma not_under_vendor k t y :
  str_has "/" k = false -> k <> "vendor" -> (t = "" \/ exists x, t = String "/" x) ->
  k +:+ t <> "vendor" +:+ String "/" y.
Proof.
  intros Hk Hv [->|[x ->]] Heq.
  - rewrite str_app_nil_r in Heq. subst k. by rewrite str_has_app, str_has_cons in Hk.
  - by apply Hv, (str_first_sep "/" k "vendor" x y).
Qed.

(** No name of the table matches a request under ["vendor/"]. *)
Lemma alias_table_no_match_vendor y kv :
  kv ∈ alias_table -> alias_matches kv.1 ("vendor" +:+ String "/" y) = false.
Proof.
  intros Hkv. destruct (alias_table_shape kv Hkv) as (Hk & Hv & _).
  apply not_true_iff_false. intros (t & Heq & Ht)%alias_matches_spec.
  by apply (not_under_vendor kv.1 t y).
Qed.

Lemma alias_table_applies kv t :
  kv ∈ alias_table -> (t = "" \/ exists x, t = String "/" x) ->
  alias_applies kv (kv.1 +:+ t) = true.
Proof.
  intros Hkv Ht. destruct (alias_table_shape kv Hkv) as (Hk & Hv & [w Hw]).
  unfold alias_applies. apply andb_true_iff. split.
  - apply alias_matches_spec. by exists t.
  - apply negb_true_iff, orb_false_iff. rewrite Hw. split.
    + apply String.eqb_neq. by apply not_under_vendor.
    + apply not_true_iff_false. intros [z Hz]%starts_with_spec.
      apply (not_under_vendor kv.1 t (w +:+ String "/" z) Hk Hv Ht).
      rewrite Hz, <- !str_app_assoc. reflexivity.
Qed.

Lemma resolve_alias_table_hit kv t :
  kv ∈ alias_table -> (t = "" \/ exists x, t = String "/" x) ->
  resolve_alias alias_table (kv.1 +:+ t) = kv.2 +:+ t.
Proof.
  intros Hkv Ht. rewrite (resolve_alias_unique _ _ kv); [|done|by apply alias_table_applies|].
  - unfold alias_rewrite. by rewrite str_drop_app.
  - intros y Hy Hay. apply (alias_wf_unique alias_table (kv.1 +:+ t)); try done.
    + apply alias_table_wf.
    + by apply alias_applies_matches.
    + apply alias_matches_spec. by exists t.
Qed.

(** ** Outcomes of a lookup *)

Lemma resolve_request_in fs importer dir spec p :
  resolve_request fs importer dir spec = Ok p -> p ∈ fs.
Proof.
  unfold resolve_request. destruct (list_find _ _) as [[i q]|] eqn:E; [|discriminate].
  intros [= <-]. by apply list_find_Some in E as (_ & ? & _).
Qed.

Lemma resolve_request_err fs importer dir spec e :
  resolve_request fs importer dir spec = Err e -> e = UnresolvedSpecifier spec importer.
Proof. unfold resolve_request. by destruct (list_find _ _) as [[i q]|]; intros [=]. Qed.

(** ** Normalization of clean paths *)

Lemma normalize_prefix_clean stack l r :
  forallb clean_seg l = true ->
  normalize_segments stack (l ++ r) = normalize_segments (rev l ++ stack) r.
Proof.
  revert stack. induction l as [|seg l IH]; intros stack; simpl; [done|].
  intros [Hs Hl]%andb_true_iff. unfold clean_seg in Hs.
  rewrite !negb_orb in Hs. apply andb_true_iff in Hs as [[H1 H2]%andb_true_iff H3].
  apply negb_true_iff, String.eqb_neq in H1, H2, H3.
  rewrite decide_False by tauto. rewrite decide_False by done.
  rewrite IH by done. by rewrite <- app_assoc.
Qed.

Lemma normalize_suffix_clean stack l r :
  forallb clean_seg r = true ->
  normalize_segments stack (l ++ r) = normalize_segments stack l ++ r.
Proof.
  intros Hr. revert stack. induction l as [|seg l IH]; intros stack; simpl.
  - rewrite <- (app_nil_r r) at 1. rewrite normalize_prefix_clean by done. simpl.
    by rewrite rev_app_distr, rev_involutive.
  - by repeat case_decide.
Qed.

Lemma path_norm_append a b :
  clean_path b = true ->
  path_norm (a +:+ String "/" b) = js_join "/" (normalize_segments [] (js_split "/" a) ++ js_split "/" b).
Proof. intros Hb. unfold path_norm. by rewrite js_split_app_sep, normalize_suffix_clean. Qed.

Lemma js_join_split_slash p : js_join "/" (js_split "/" p) = p.
Proof. exact (js_join_split "/" p). Qed.

Lemma js_join_split_app d x :
  js_join "/" (rev (rev (js_split "/" d)) ++ js_split "/" x) = d +:+ String "/" x.
Proof. by rewrite rev_involutive, <- js_split_app_sep, js_join_split_slash. Qed.

(** A clean request is not relative: its first segment is neither
    ["."] nor [".."]. *)
Lemma clean_not_relative p : clean_path p = true -> is_relative p = false.
Proof.
  unfold clean_path, is_relative. intros Hp. apply orb_false_iff. split;
    apply not_true_iff_false; intros [x ->]%starts_with_spec.
  - change ("./" +:+ x) with ("." +:+ String "/" x) in Hp.
    by rewrite js_split_app_sep in Hp.
  - change ("../" +:+ x) with (".." +:+ String "/" x) in Hp.
    by rewrite js_split_app_sep in Hp.
Qed.

(** No name of the table is ["."], so no alias applies to a relative
    request. *)
Lemma resolve_alias_dot x : resolve_alias alias_table ("./" +:+ x) = "./" +:+ x.
Proof.
  apply resolve_alias_none. intros kv Hkv. unfold alias_applies.
  destruct (alias_table_shape kv Hkv) as (Hk & _ & _).
  enough (alias_matches kv.1 ("./" +:+ x) = false) as -> by done.
  apply not_true_iff_false. intros (t & Heq & [->|[y ->]])%alias_matches_spec.
  - rewrite str_app_nil_r in Heq. rewrite <- Heq in Hk. discriminate.
  - change ("./" +:+ x) with ("." +:+ String "/" x) in Heq. symmetry in Heq.
    apply (str_first_sep "/" kv.1 "." y x) in Heq; [|done|done].
    in_cases Hkv; discriminate.
Qed.

(** ** Properties *)

(** C19. The alias table of the source can be declared in any order: it
    is overlap-free, so at most one entry matches any request and
    resolution does not depend on the order webpack walks the object. *)
Theorem alias_table_order_independent t r :
  Permutation t alias_table -> resolve_alias t r = resolve_alias alias_table r.
Proof. intros Hp. symmetry. apply resolve_alias_perm; [by symmetry|apply alias_table_wf]. Qed.

(** The specification's example of first-match-wins: with the
    overlapping table [foo], [foo/bar], the request ["foo/bar"] resolves
    through [foo]; in the other order it resolves through [foo/bar]. *)
Example resolve_alias_first_match :
  resolve_alias [("foo", "vendor/foo"); ("foo/bar", "vendor/special")] "foo/bar" = "vendor/foo/bar" /\
  resolve_alias [("foo/bar", "vendor/special"); ("foo", "vendor/foo")] "foo/bar" = "vendor/special".
Proof. vm_compute. split; reflexivity. Qed.

(** C18. Every alias of the source maps its name to its target, and every
    path under its name to the same path under its target. *)
Theorem resolve_alias_table_entry k v :
  (k, v) ∈ alias_table ->
  resolve_alias alias_table k = v /\
  forall x, resolve_alias alias_table (k +:+ String "/" x) = v +:+ String "/" x.
Proof.
  intros Hkv. split.
  - pose proof (resolve_alias_table_hit (k, v) "" Hkv (or_introl eq_refl)) as H.
    simpl in H. by rewrite !str_app_nil_r in H.
  - intros x. apply (resolve_alias_table_hit (k, v)); [done|by right; exists x].
Qed.

(** C20. Aliasing with the source's table is idempotent: a resolved
    request lies under ["vendor/"], which no alias matches, so webpack's
    re-resolution of the aliased request changes nothing. *)
Theorem resolve_alias_idempotent r :
  resolve_alias alias_table (resolve_alias alias_table r) = resolve_alias alias_table r.
Proof.
  destruct (list_find (fun x => alias_applies x r = true) alias_table) as [[i x]|] eqn:E.
  - apply list_find_Some in E as (Hi & Hax & _). apply list_elem_of_lookup_2 in Hi.
    rewrite (resolve_alias_unique _ _ x Hi Hax).
    2: { intros y Hy Hay. apply (alias_wf_unique alias_table r); [apply alias_table_wf|done|done| |];
         by apply alias_applies_matches. }
    destruct (alias_table_shape x Hi) as (_ & _ & [w Hw]).
    assert (Ho : alias_rewrite x r = "vendor" +:+ String "/" (w +:+ str_drop (String.length x.1) r)).
    { unfold alias_rewrite. rewrite Hw, <- str_app_assoc. reflexivity. }
    rewrite Ho. apply resolve_alias_none. intros y Hy. unfold alias_applies.
    by rewrite alias_table_no_match_vendor.
  - apply list_find_None in E. rewrite Forall_forall in E.
    assert (Hr : resolve_alias alias_table r = r).
    { apply resolve_alias_none. intros y Hy. apply not_true_iff_false. by apply E. }
    by rewrite !Hr.
Qed.

(** C21. An entry module (resolved from [context], line 104) with a
    clean path that no alias names is looked up as is, then with [.js],
    then with [.coffee] (line 156), first under [context] itself and then
    under [node_modules] (line 157); the first path that exists is the
    module, and none is [UnresolvedSpecifier]. *)
Theorem resolve_entry_order fs name ep :
  clean_path ep = true -> resolve_alias alias_table ep = ep ->
  resolve_request fs name "" ep =
  match list_find (fun p => p ∈ fs)
          [ep; ep +:+ ".js"; ep +:+ ".coffee";
           "node_modules/" +:+ ep; "node_modules/" +:+ ep +:+ ".js"; "node_modules/" +:+ ep +:+ ".coffee"] with
  | Some (_, p) => Ok p
  | None => Err (UnresolvedSpecifier ep name)
  end.
Proof.
  intros Hc Ha. unfold resolve_request, candidates. rewrite Ha, clean_not_relative by done.
  change (ancestors "") with [""]. cbn [flat_map map resolve_modules app].
  change (path_norm ("" +:+ "/" +:+ "." +:+ "/" +:+ ep)) with (path_norm ("/." +:+ String "/" ep)).
  change (path_norm ("" +:+ "/" +:+ "node_modules" +:+ "/" +:+ ep))
    with (path_norm ("/node_modules" +:+ String "/" ep)).
  rewrite !path_norm_append by done. simpl.
  destruct (js_split "/" ep) as [|s0 segs] eqn:E; [by apply js_split_not_nil in E|].
  rewrite <- E, js_join_split_slash. reflexivity.
Qed.

(** C22. A relative import ["./x"] of a module in the directory [d] (both
    clean) is looked up next to the importer: [d/x], then [d/x.js], then
    [d/x.coffee]; the first that exists is the module. *)
Theorem resolve_relative_order fs importer d x :
  clean_path d = true -> clean_path x = true ->
  resolve_request fs importer d ("./" +:+ x) =
  match list_find (fun p => p ∈ fs)
          [d +:+ "/" +:+ x; d +:+ "/" +:+ x +:+ ".js"; d +:+ "/" +:+ x +:+ ".coffee"] with
  | Some (_, p) => Ok p
  | None => Err (UnresolvedSpecifier ("./" +:+ x) importer)
  end.
Proof.
  intros Hd Hx. unfold resolve_request, candidates. rewrite resolve_alias_dot.
  change (is_relative ("./" +:+ x)) with true. cbv iota.
  change ("/" +:+ "./" +:+ x) with ("/." +:+ String "/" x).
  rewrite (str_app_assoc d "/." (String "/" x)).
  rewrite path_norm_append by done. unfold path_norm.
  rewrite js_split_app_sep, normalize_prefix_clean by done. simpl.
  rewrite app_nil_r, js_join_split_app. by rewrite <- !str_app_assoc.
Qed.

(** The literal reading of section 4.1 of the specification: the first
    entry whose name is a string prefix of the request. *)
Fixpoint resolve_alias_plain_prefix (table : list (string * string)) (request : string) : string :=
  match table with
  | [] => request
  | item :: table' =>
      if starts_with item.1 request then item.2 +:+ str_drop (String.length item.1) request
      else resolve_alias_plain_prefix table' request
  end.

(** Under the plain-prefix reading, [jquery] (declared first) would
    capture [jquery.mousewheel]; webpack's whole-segment rule resolves it
    to its own target. *)
Example alias_plain_prefix_shadows :
  resolve_alias_plain_prefix alias_table "jquery.mousewheel" = "vendor/jquery-2-1-0.mousewheel" /\
  resolve_alias alias_table "jquery.mousewheel" = "vendor/jquery.mousewheel".
Proof. vm_compute. split; reflexivity. Qed.

(** [resolve.modules: ['.']] is searched from the importer's directory
    upwards: a [vendor/] directory next to a page shadows the top-level one
    for every aliased request of that page. *)
Example resolve_request_nearest_vendor :
  resolve_request {[ "bundle/vendor/jquery-2-1-0.js"; "vendor/jquery-2-1-0.js" ]}
    "bundle/page.js" "bundle" "jquery" = Ok "bundle/vendor/jquery-2-1-0.js".
Proof. vm_compute. reflexivity. Qed.

(** ** Witnesses *)

Lemma alias_table_order_independent_witness :
  resolve_alias (rev alias_table) "jquery.validate/extra" =
  resolve_alias alias_table "jquery.validate/extra".
Proof. apply alias_table_order_independent. apply Permutation_sym, Permutation_rev. Defined.

Lemma resolve_alias_table_entry_witness :
  resolve_alias alias_table "sha1" = "vendor/git-sha1" /\
  forall x, resolve_alias alias_table ("sha1" +:+ String "/" x) = "vendor/git-sha1" +:+ String "/" x.
Proof. apply resolve_alias_table_entry. by_decide. Defined.

Definition sample_fs : gset string :=
  {[ "bundle/Welcome/show.coffee"; "bundle/Welcome/show.js"; "bundle/Welcome/util.coffee" ]}.

Lemma resolve_entry_order_witness :
  resolve_request sample_fs "Welcome-show" "" "bundle/Welcome/show" =
  match list_find (fun p => p ∈ sample_fs)
          ["bundle/Welcome/show"; "bundle/Welcome/show" +:+ ".js"; "bundle/Welcome/show" +:+ ".coffee";
           "node_modules/" +:+ "bundle/Welcome/show"; "node_modules/" +:+ "bundle/Welcome/show" +:+ ".js";
           "node_modules/" +:+ "bundle/Welcome/show" +:+ ".coffee"] with
  | Some (_, p) => Ok p
  | None => Err (UnresolvedSpecifier "bundle/Welcome/show" "Welcome-show")
  end.
Proof. apply resolve_entry_order; reflexivity. Defined.

Lemma resolve_relative_order_witness :
  resolve_request sample_fs "bundle/Welcome/show.js" "bundle/Welcome" ("./" +:+ "util") =
  match list_find (fun p => p ∈ sample_fs)
          ["bundle/Welcome" +:+ "/" +:+ "util"; "bundle/Welcome" +:+ "/" +:+ "util" +:+ ".js";
           "bundle/Welcome" +:+ "/" +:+ "util" +:+ ".coffee"] with
  | Some (_, p) => Ok p
  | None => Err (UnresolvedSpecifier ("./" +:+ "util") "bundle/Welcome/show.js")
  end.
Proof. apply resolve_relative_order; reflexivity. Defined.

End Alias.
