(* ===== verification/Loaders.v ===== *)
(** * The transform pipeline: [module.loaders] and [UglifyESOptions] (lines 97-144)

    Two rules select the loaders of a module by its path: [/\.coffee$/]
    uses [uglify-es-loader] and [coffee-loader], [/\.js$/] uses
    [uglify-es-loader].  Webpack concatenates the [use] lists of the
    matching rules and runs them right to left, so a CoffeeScript module is
    compiled first and minified second.  A failing loader aborts the build
    with [TransformFailure], carrying the module's path.

    The loaders themselves (CoffeeScript, UglifyES) are opaque: the
    interface [Transforms] gives each loader, with its options, as a
    function from source text to output text or a failure cause. *)

From S2P Require Import Prelude JsString.
Import JsString.

Module Loaders.

(** ** Data of the configuration *)

Record uglify_options := { uo_sourceMap : bool; uo_compress : bool; uo_mangle : bool }.

(** Lines 97-101. *)
Definition UglifyESOptions : uglify_options :=
  {| uo_sourceMap := true; uo_compress := false; uo_mangle := true |}.

Inductive loader :=
  | UglifyESLoader (options : uglify_options)   (** ['../node/uglify-es-loader'] *)
  | CoffeeLoader (sourceMap : bool).             (** ['coffee-loader'] *)

Record rule := { rule_test : string -> bool; rule_use : list loader }.

(** Lines 119-144; [test: /\.coffee$/] and [test: /\.js$/]. *)
Definition module_loaders : list rule := [
  {| rule_test := ends_with ".coffee";
     rule_use := [UglifyESLoader UglifyESOptions; CoffeeLoader true] |};
  {| rule_test := ends_with ".js";
     rule_use := [UglifyESLoader UglifyESOptions] |}].

(** ** The opaque transforms *)

Class Transforms := {
  run_loader : loader -> string -> string + string   (** output, or a failure cause *)
}.

(** ** Selection and chaining *)

(** The loaders of a resource: the [use] lists of the matching rules, in
    rule order. *)
Definition loaders_for (resource : string) : list loader :=
  flat_map (fun r => if rule_test r resource then rule_use r else []) module_loaders.

Section Run.
Context `{Transforms}.

Definition run_one (resource : string) (l : loader) (src : string) : result string :=
  match run_loader l src with
  | inl out => Ok out
  | inr cause => Err (TransformFailure resource cause)
  end.

(** Right to left: the last loader of the list runs first. *)
Definition run_chain (resource : string) (ls : list loader) (src : string) : result string :=
  fold_right (fun l acc => let! s := acc in run_one resource l s) (Ok src) ls.

Definition transform (resource src : string) : result string :=
  run_chain resource (loaders_for resource) src.

End Run.

(** ** Lemmas *)

Lemma coffee_not_js r : ends_with ".coffee" r = true -> ends_with ".js" r = false.
Proof. intros [x ->]%ends_with_spec. apply ends_with_app_false; [reflexivity|simpl; lia]. Qed.

Lemma run_chain_Err `{Transforms} r ls src e :
  run_chain r ls src = Err e ->
  exists l s cause, l ∈ ls /\ run_loader l s = inr cause /\ e = TransformFailure r cause.
Proof.
  unfold run_chain. induction ls as [|l ls IH]; simpl; [discriminate|].
  destruct (fold_right _ (Ok src) ls) as [s|e'] eqn:E; simpl.
  - unfold run_one. destruct (run_loader l s) as [out|cause] eqn:Hl; [discriminate|].
    intros [= <-]. exists l, s, cause. split; [by left|done].
  - intros [= ->]. destruct (IH eq_refl) as (l' & s & cause & Hl' & Hrun & ->).
    exists l', s, cause. split; [by right|done].
Qed.

(** ** Properties *)

(** C24. Rule selection: a [.coffee] module gets [uglify-es-loader] and
    [coffee-loader], a [.js] module [uglify-es-loader] alone, any other
    module no loader; the two tests never both match. *)
Theorem loaders_for_spec r :
  loaders_for r =
  if ends_with ".coffee" r then [UglifyESLoader UglifyESOptions; CoffeeLoader true]
  else if ends_with ".js" r then [UglifyESLoader UglifyESOptions]
  else [].
Proof.
  unfold loaders_for. simpl. case_bool (ends_with ".coffee" r).
  - by rewrite coffee_not_js.
  - by destruct (ends_with ".js" r).
Qed.

Section RunProps.
Context `{Transforms}.

(** C25. A CoffeeScript module is compiled by [coffee-loader] first and
    its output minified by [uglify-es-loader] second; a failure of either
    aborts with [TransformFailure] for the module's path, and a failure of
    the compiler skips the minifier. *)
Theorem transform_coffee r src :
  ends_with ".coffee" r = true ->
  transform r src =
  match run_loader (CoffeeLoader true) src with
  | inl js =>
      match run_loader (UglifyESLoader UglifyESOptions) js with
      | inl out => Ok out
      | inr cause => Err (TransformFailure r cause)
      end
  | inr cause => Err (TransformFailure r cause)
  end.
Proof.
  intros Hc. unfold transform, loaders_for. simpl. rewrite Hc, coffee_not_js by done. simpl.
  unfold run_one. by destruct (run_loader (CoffeeLoader true) src).
Qed.

(** C26. A module that is not CoffeeScript is minified by
    [uglify-es-loader] alone, with source maps, without compression and
    with mangling (lines 97-101), when its path ends in [.js], and is left
    as it is otherwise; a failure of the minifier aborts with
    [TransformFailure] for the module's path. *)
Theorem transform_js r src :
  ends_with ".coffee" r = false ->
  transform r src =
  if ends_with ".js" r then
    match run_loader (UglifyESLoader {| uo_sourceMap := true; uo_compress := false; uo_mangle := true |}) src with
    | inl out => Ok out
    | inr cause => Err (TransformFailure r cause)
    end
  else Ok src.
Proof.
  intros Hc. unfold transform, loaders_for. simpl. rewrite Hc. simpl.
  by destruct (ends_with ".js" r).
Qed.

End RunProps.

(** ** An instance of the transforms, for the witnesses

    The compiler fails on a source holding ['@'], and otherwise prefixes
    a marker; the minifier drops spaces. *)

Fixpoint drop_spaces (s : string) : string :=
  match s with
  | EmptyString => EmptyString
  | String c s' => if Ascii.eqb c " " then drop_spaces s' else String c (drop_spaces s')
  end.

#[export] Instance toy_transforms : Transforms := {|
  run_loader l src :=
    match l with
    | CoffeeLoader _ => if str_has "@" src then inr "unexpected @" else inl ("var x = " +:+ src)
    | UglifyESLoader _ => inl (drop_spaces src)
    end
|}.

Lemma transform_coffee_witness :
  transform "bundle/Welcome/show.coffee" "1 + 2" =
  match run_loader (CoffeeLoader true) "1 + 2" with
  | inl js =>
      match run_loader (UglifyESLoader UglifyESOptions) js with
      | inl out => Ok out
      | inr cause => Err (TransformFailure "bundle/Welcome/show.coffee" cause)
      end
  | inr cause => Err (TransformFailure "bundle/Welcome/show.coffee" cause)
  end.
Proof. apply transform_coffee. reflexivity. Defined.

Lemma transform_js_witness :
  transform "bundle/Welcome/show.js" "var a = 1" =
  if ends_with ".js" "bundle/Welcome/show.js" then
    match run_loader (UglifyESLoader {| uo_sourceMap := true; uo_compress := false; uo_mangle := true |}) "var a = 1" with
    | inl out => Ok out
    | inr cause => Err (TransformFailure "bundle/Welcome/show.js" cause)
    end
  else Ok "var a = 1".
Proof. apply transform_js. reflexivity. Defined.

End Loaders.
