(* ===== verification/Writer.v ===== *)
(** * The output writer: webpack's emission into [output.path] and
      [WebpackCleanupPlugin] (lines 108, 146)

    Webpack writes every asset into the output directory [output.path],
    in asset order, each as a flat file named by the basename of the asset
    (specification, section 4.7); the first file the file system refuses
    aborts the run with [WriteFailure], leaving the directory as it is at
    that point.  [WebpackCleanupPlugin] runs on webpack's [done] hook,
    after a successful emission: it removes every file of the output
    directory that the build did not emit.  On a refused write the hook
    does not run, so the previous build's files stay next to the files
    already written; this is the order of the code, not the
    delete-then-write order section 4.7 of the specification describes.

    The directory is a finite map from file names to contents; the file
    system's refusals are a parameter [writable].  The writing is webpack's
    and the plugin's behaviour is the published one of that package (neither
    is in this repository). *)

From stdpp Require Import gmap.
From S2P Require Import Prelude JsString JsObject Shim.
Import JsString JsObject Shim.

Module Writer.

(** Line 108, relative to [web/]. *)
Definition output_path : string := "public/javascript-bundles".

Abbreviation directory := (gmap string string).

(** What the writer puts on disk for each asset, in order. *)
Definition written (assets : obj asset) : list (string * string) :=
  map (fun na => (js_basename na.1, source na.2)) assets.

(** [WebpackCleanupPlugin] (line 146), on the [done] hook: keep only the
    files the build emitted. *)
Definition cleanup (assets : obj asset) (dir : directory) : directory :=
  filter (fun kv => kv.1 ∈ map fst (written assets)) dir.

Section Write.

(** The names the file system accepts. *)
Variable writable : string -> bool.

(** Webpack's emission: write the assets in order, each under its
    basename; the first refused file aborts. *)
Fixpoint write_all (dir : directory) (assets : obj asset) : directory * result unit :=
  match assets with
  | [] => (dir, Ok tt)
  | (name, a) :: rest =>
      let file := js_basename name in
      if writable file then write_all (<[file := source a]> dir) rest
      else (dir, Err (WriteFailure file))
  end.

(** Emission, then the cleanup plugin when the emission succeeded. *)
Definition output_writer (prior : directory) (assets : obj asset) : directory * result unit :=
  match write_all prior assets with
  | (dir, Ok tt) => (cleanup assets dir, Ok tt)
  | (dir, Err e) => (dir, Err e)
  end.

End Write.

(** ** Lemmas *)

Lemma cleanup_lookup assets dir k :
  cleanup assets dir !! k = if decide (k ∈ map fst (written assets)) then dir !! k else None.
Proof.
  unfold cleanup. rewrite map_lookup_filter.
  destruct (dir !! k); simpl; [|by case_decide]. by repeat case_decide.
Qed.

Section WriteProps.
Variable writable : string -> bool.

Lemma write_all_ok dir assets d' :
  write_all writable dir assets = (d', Ok tt) ->
  forall k, d' !! k = match assoc_last k (written assets) with Some v => Some v | None => dir !! k end.
Proof.
  revert dir. induction assets as [|[n a] assets IH]; intros dir; simpl.
  - by intros [= <-] k.
  - destruct (writable (js_basename n)); [|discriminate]. intros Hw k.
    rewrite (IH _ Hw k). destruct (assoc_last k (written assets)); [done|].
    rewrite lookup_insert. by repeat case_decide; subst.
Qed.

Lemma write_all_err dir assets d' e :
  write_all writable dir assets = (d', Err e) ->
  exists f, e = WriteFailure f /\ writable f = false /\ f ∈ map fst (written assets) /\
    forall k v, d' !! k = Some v -> dir !! k = Some v \/ (k, v) ∈ written assets.
Proof.
  revert dir. induction assets as [|[n a] assets IH]; intros dir; simpl; [discriminate|].
  case_bool (writable (js_basename n)).
  - intros Hw. destruct (IH _ Hw) as (f & -> & Hf & Hin & Hk). exists f.
    do 2 (split; [done|]). split; [by right|].
    intros k v Hkv. destruct (Hk k v Hkv) as [Hd|Hd]; [|by right; right].
    rewrite lookup_insert in Hd. case_decide; [subst; injection Hd as <-; by right; left|by left].
  - intros [= <- <-]. exists (js_basename n). split; [done|]. split; [done|].
    split; [by left|]. intros k v Hkv. by left.
Qed.

(** A file no asset is written to keeps its content. *)
Lemma write_all_untouched dir assets d' r k :
  write_all writable dir assets = (d', r) -> k ∉ map fst (written assets) -> d' !! k = dir !! k.
Proof.
  revert dir. induction assets as [|[n a] assets IH]; intros dir; simpl; [by intros [= <- _]|].
  rewrite not_elem_of_cons. intros Hw [Hne Hk].
  destruct (writable (js_basename n)); [|by injection Hw as <-].
  rewrite (IH _ Hw Hk). by rewrite lookup_insert_ne.
Qed.

Lemma output_writer_Ok prior assets d' :
  output_writer writable prior assets = (d', Ok tt) ->
  exists d, write_all writable prior assets = (d, Ok tt) /\ d' = cleanup assets d.
Proof.
  unfold output_writer. destruct (write_all _ _ _) as [d [[]|e]]; [|done].
  intros [= <-]. by exists d.
Qed.

Lemma output_writer_Err prior assets d' e :
  output_writer writable prior assets = (d', Err e) -> write_all writable prior assets = (d', Err e).
Proof. unfold output_writer. by destruct (write_all _ _ _) as [d [[]|e']]. Qed.

(** The files written for flat asset names are the assets' own names. *)
Lemma written_flat (assets : obj asset) :
  Forall (fun k => str_has "/" k = false) (obj_keys assets) ->
  written assets = map (fun na => (na.1, source na.2)) assets.
Proof.
  intros Hflat. unfold written. apply map_ext_in. intros [m b] Hm. simpl. f_equal.
  apply js_basename_nosep. rewrite Forall_forall in Hflat. apply Hflat.
  apply list_elem_of_In, in_map_iff. by exists (m, b).
Qed.

(** After a successful write, a file holds the last asset written under
    its name, and there is no other file. *)
Lemma output_writer_Ok_lookup prior assets d' k :
  output_writer writable prior assets = (d', Ok tt) -> d' !! k = assoc_last k (written assets).
Proof.
  intros (d & Hw & ->)%output_writer_Ok. rewrite cleanup_lookup, (write_all_ok _ _ _ Hw k).
  case_decide as Hk.
  - by destruct (assoc_last_Some _ _ Hk) as [v ->].
  - by rewrite assoc_last_None.
Qed.

(** For flat, distinct names, each file holds the bytes of the asset of
    its name. *)
Lemma output_writer_get prior assets d' :
  obj_wf assets -> Forall (fun k => str_has "/" k = false) (obj_keys assets) ->
  output_writer writable prior assets = (d', Ok tt) ->
  forall k, d' !! k = source <$> obj_get k assets.
Proof.
  intros Hwf Hflat Hw k. rewrite (output_writer_Ok_lookup _ _ _ _ Hw), written_flat,
    assoc_last_fmap, assoc_last_wf by done.
  by destruct (obj_get k assets).
Qed.

(** ** Properties *)

(** C27. After a successful build the output directory holds exactly the
    assets: each file is the last asset written under that name, and no
    file of the previous build that the build did not emit survives (the
    cleanup plugin removed it). *)
Theorem output_writer_exact prior assets d' :
  output_writer writable prior assets = (d', Ok tt) ->
  forall k, d' !! k = assoc_last k (written assets).
Proof. intros Hw k. exact (output_writer_Ok_lookup _ _ _ k Hw). Qed.

(** C28. A refused write aborts with [WriteFailure] for the name of an
    asset, before the cleanup plugin runs: every file of the previous
    build that the run did not overwrite is still there, and every other
    file holds an asset written before the refusal. *)
Theorem output_writer_failure prior assets d' e :
  output_writer writable prior assets = (d', Err e) ->
  exists f, e = WriteFailure f /\ writable f = false /\ f ∈ map fst (written assets) /\
    (forall k, k ∉ map fst (written assets) -> d' !! k = prior !! k) /\
    (forall k v, d' !! k = Some v -> prior !! k = Some v \/ (k, v) ∈ written assets).
Proof.
  intros Hw%output_writer_Err. destruct (write_all_err _ _ _ _ Hw) as (f & -> & Hf & Hin & Hk).
  exists f. do 3 (split; [done|]). split; [|done].
  intros k. exact (write_all_untouched _ _ _ _ k Hw).
Qed.

End WriteProps.

(** ** Witnesses *)

Definition sample_assets_flat : obj asset :=
  [("0a1b-home.js", {| source := "bundle"; size := 6 |});
   ("home.js.md5", {| source := "0a1b"; size := 4 |})].

Definition stale_dir : directory := {[ "9f9f-home.js" := "old bundle" ]}.

Lemma output_writer_exact_witness :
  (output_writer (fun _ => true) stale_dir sample_assets_flat).1 !! "9f9f-home.js" =
  assoc_last "9f9f-home.js" (written sample_assets_flat).
Proof.
  apply (output_writer_exact (fun _ => true) stale_dir sample_assets_flat). reflexivity.
Defined.

Lemma output_writer_failure_witness :
  exists f, WriteFailure "home.js.md5" = WriteFailure f /\
    (fun k => negb (String.eqb k "home.js.md5")) f = false /\
    f ∈ map fst (written sample_assets_flat) /\
    (forall k, k ∉ map fst (written sample_assets_flat) ->
       (output_writer (fun k => negb (String.eqb k "home.js.md5")) stale_dir sample_assets_flat).1 !! k =
       stale_dir !! k) /\
    (forall k v, (output_writer (fun k => negb (String.eqb k "home.js.md5")) stale_dir sample_assets_flat).1 !! k = Some v ->
       stale_dir !! k = Some v \/ (k, v) ∈ written sample_assets_flat).
Proof.
  apply (output_writer_failure _ stale_dir sample_assets_flat). reflexivity.
Defined.

End Writer.
