(* ===== verification/Graph.v ===== *)
(** * The dependency graph builder (specification, section 4.3)

    From the module of every entry of [entryPointsMap], webpack resolves
    each import specifier of each module it reaches (with [Alias]) and
    records the edges; a specifier that does not resolve aborts the build
    with [UnresolvedSpecifier].  The traversal is a work list guarded by
    the list of visited modules, so that cycles among modules terminate:
    a popped module is visited once, and the targets pushed after it are
    those not yet visited.

    The traversal is webpack's and is modelled from the specification.  The
    file set [fs] and the specifiers each module imports ([imports], in
    source order) are parameters: parsing a module is the opaque part of
    the transforms.  The loop takes fuel, one unit per visited module;
    [build_graph] gives it [size fs], which is always enough because every
    visited module is a distinct file of [fs].  Running out of fuel is the
    outcome [OutOfFuel], distinct from the build errors. *)

From stdpp Require Import gmap relations.
From S2P Require Import Prelude JsString JsObject Alias.
Import JsString JsObject Alias.

Module Graph.

(** ** Data *)

(** A module graph: each visited module with the resolved paths of its
    imports, in visit order. *)
Definition graph := list (string * list string).

Definition nodes (g : graph) : list string := map fst g.

Inductive outcome :=
  | Done (g : graph)
  | Failed (e : build_error)
  | OutOfFuel.

(** ** The traversal *)

Section Traverse.

(** The files under [context], and the import specifiers of each module. *)
Variable fs : gset string.
Variable imports : string -> list string.

(** The imports of [m], each resolved from the directory of [m]. *)
Definition resolve_imports (m : string) : result (list string) :=
  result_map (resolve_request fs m (js_dirname m)) (imports m).

(** Visiting [m] with resolved imports [deps]: record it, then push the
    targets not yet visited after the rest of the work list. *)
Definition visit (m : string) (deps rest : list string) (g : graph) : list string * graph :=
  let g' := g ++ [(m, deps)] in
  (filter (fun p => p ∉ nodes g') (rest ++ deps), g').

Fixpoint traverse (fuel : nat) (work : list string) (g : graph) : outcome :=
  match work with
  | [] => Done g
  | m :: rest =>
      match fuel with
      | 0 => OutOfFuel
      | S fuel' =>
          match resolve_imports m with
          | Err e => Failed e
          | Ok deps => let '(work', g') := visit m deps rest g in traverse fuel' work' g'
          end
      end
  end.

(** The roots: each entry's module, resolved from [context]; a failure
    names the entry. *)
Definition resolve_roots (entries : obj string) : result (list string) :=
  result_map (fun e => resolve_request fs e.1 "" e.2) entries.

Definition build_graph (entries : obj string) : outcome :=
  match resolve_roots entries with
  | Err e => Failed e
  | Ok roots => traverse (size fs) roots []
  end.

(** ** The abstract graph *)

(** An edge from [m] to every path one of its imports resolves to. *)
Definition edge (m p : string) : Prop :=
  exists s, s ∈ imports m /\ resolve_request fs m (js_dirname m) s = Ok p.

Definition reachable (roots : list string) (m : string) : Prop :=
  exists r, r ∈ roots /\ rtc edge r m.

(** The invariant of the traversal, over the roots, the work list and
    the graph built so far. *)
Record trav_inv (roots work : list string) (g : graph) : Prop := {
  inv_nodup : NoDup (nodes g);
  inv_fresh : forall p, p ∈ work -> p ∉ nodes g;
  inv_resolved : forall m deps, (m, deps) ∈ g -> resolve_imports m = Ok deps;
  inv_closed : forall m deps p, (m, deps) ∈ g -> p ∈ deps -> p ∈ work \/ p ∈ nodes g;
  inv_sound : forall p, p ∈ work \/ p ∈ nodes g -> reachable roots p;
  inv_roots : forall r, r ∈ roots -> r ∈ work \/ r ∈ nodes g
}.

End Traverse.

(** ** Lemmas *)

Lemma elem_of_nodes m (g : graph) : m ∈ nodes g <-> exists deps, (m, deps) ∈ g.
Proof.
  unfold nodes. rewrite list_elem_of_In, in_map_iff. split.
  - intros ([m' deps] & <- & H). exists deps. by apply list_elem_of_In.
  - intros [deps H]. exists (m, deps). split; [done|]. by apply list_elem_of_In.
Qed.

Lemma nodes_snoc (g : graph) m deps : nodes (g ++ [(m, deps)]) = nodes g ++ [m].
Proof. unfold nodes. by rewrite map_app. Qed.

Section Props.
Variable fs : gset string.
Variable imports : string -> list string.

Abbreviation edge := (edge fs imports).
Abbreviation resolve_imports := (resolve_imports fs imports).
Abbreviation reachable := (reachable fs imports).
Abbreviation trav_inv := (trav_inv fs imports).
Abbreviation traverse := (traverse fs imports).

(** The resolved imports of a module are exactly its successors. *)
Lemma resolve_imports_edge m deps p :
  resolve_imports m = Ok deps -> edge m p <-> p ∈ deps.
Proof.
  unfold resolve_imports. intros Hr%result_map_Ok. split.
  - intros (s & Hs & Hp). destruct (Forall2_elem_of_l _ _ _ _ Hr Hs) as (q & Hq & Hsq).
    congruence.
  - intros Hp. destruct (Forall2_elem_of_r _ _ _ _ Hr Hp) as (s & Hs & Hsp). by exists s.
Qed.

Lemma edge_in_fs m p : edge m p -> p ∈ fs.
Proof. intros (s & _ & Hs). by eapply resolve_request_in. Qed.

Lemma reachable_in_fs roots p :
  (forall r, r ∈ roots -> r ∈ fs) -> reachable roots p -> p ∈ fs.
Proof.
  intros Hroots (r & Hr & [<-|(y & _ & Hyp)]%rtc_inv_r); [by apply Hroots|].
  by eapply edge_in_fs.
Qed.

Lemma reachable_step roots m p : reachable roots m -> edge m p -> reachable roots p.
Proof. intros (r & Hr & Hrm) Hmp. exists r. split; [done|]. by eapply rtc_r. Qed.

(** A list of distinct files of [fs] is no longer than [fs]. *)
Lemma NoDup_fs_length (l : list string) :
  NoDup l -> (forall p, p ∈ l -> p ∈ fs) -> length l <= size fs.
Proof.
  intros Hnd Hin. unfold size, set_size; simpl. apply NoDup_incl_length.
  - by apply NoDup_ListNoDup.
  - intros p Hp. apply list_elem_of_In, elem_of_elements, Hin, list_elem_of_In, Hp.
Qed.

(** The work list after a visit. *)
Lemma elem_of_visit_work m deps rest g p :
  p ∈ (visit m deps rest g).1 <-> ~ p ∈ nodes g ++ [m] /\ (p ∈ rest \/ p ∈ deps).
Proof. unfold visit; simpl. rewrite list_elem_of_filter, nodes_snoc, !elem_of_app. tauto. Qed.

(** A visit keeps every path of the work list and the graph, adds the
    resolved imports, and nothing else. *)
Lemma visit_covers m deps rest g p :
  p ∈ m :: rest \/ p ∈ deps \/ p ∈ nodes g ->
  p ∈ (visit m deps rest g).1 \/ p ∈ nodes (visit m deps rest g).2.
Proof.
  rewrite elem_of_visit_work. simpl. rewrite nodes_snoc, !elem_of_app, list_elem_of_singleton,
    elem_of_cons.
  destruct (decide (p ∈ nodes g \/ p = m)); [right; tauto|]. tauto.
Qed.

Lemma visit_covered m deps rest g p :
  p ∈ (visit m deps rest g).1 \/ p ∈ nodes (visit m deps rest g).2 ->
  p ∈ m :: rest \/ p ∈ deps \/ p ∈ nodes g.
Proof.
  rewrite elem_of_visit_work. simpl. rewrite nodes_snoc, !elem_of_app, list_elem_of_singleton,
    elem_of_cons. tauto.
Qed.
(** ** The invariant of the traversal *)

Lemma traverse_S_cons n m rest g :
  traverse (S n) (m :: rest) g =
  match resolve_imports m with
  | Err e => Failed e
  | Ok deps => traverse n (visit m deps rest g).1 (visit m deps rest g).2
  end.
Proof. simpl. destruct (resolve_imports m) as [deps|]; [|done]. by destruct (visit m deps rest g). Qed.

Lemma init_inv roots : trav_inv roots roots [].
Proof.
  split; simpl.
  - apply NoDup_nil_2.
  - by intros p _ ?%elem_of_nil.
  - by intros m deps ?%elem_of_nil.
  - by intros m deps p ?%elem_of_nil.
  - intros p [Hp|?%elem_of_nil]; [|done]. exists p. split; [done|]. apply rtc_refl.
  - by left.
Qed.

Lemma visit_inv roots m rest g deps :
  trav_inv roots (m :: rest) g -> resolve_imports m = Ok deps ->
  trav_inv roots (visit m deps rest g).1 (visit m deps rest g).2.
Proof.
  intros [Hnd Hfr Hres Hcl Hsd Hrt] Hr.
  assert (Hm : m ∉ nodes g) by (apply Hfr; left).
  split.
  - simpl. rewrite nodes_snoc. apply NoDup_app. split; [done|]. split; [|apply NoDup_singleton].
    by intros x Hx ->%list_elem_of_singleton.
  - intros p. rewrite elem_of_visit_work. simpl. rewrite nodes_snoc. tauto.
  - simpl. intros m' deps' [Hin|Hin]%elem_of_app; [by apply Hres|].
    by apply list_elem_of_singleton in Hin as [= -> ->].
  - intros m' deps' p Hin Hp. apply visit_covers. simpl in Hin.
    apply elem_of_app in Hin as [Hin|Hin]; [|apply list_elem_of_singleton in Hin as [= -> ->]; tauto].
    destruct (Hcl m' deps' p Hin Hp); tauto.
  - intros p [Hp|[Hp|Hp]]%visit_covered; [by apply Hsd; left| |by apply Hsd; right].
    apply reachable_step with m; [by apply Hsd; left; left|].
    by apply (resolve_imports_edge _ _ _ Hr).
  - intros r Hr'. apply visit_covers. destruct (Hrt r Hr'); tauto.
Qed.

(** Every module the traversal meets is a file. *)
Lemma inv_in_fs roots work g p :
  trav_inv roots work g -> (forall r, r ∈ roots -> r ∈ fs) ->
  p ∈ work \/ p ∈ nodes g -> p ∈ fs.
Proof. intros Hinv Hroots Hp. eapply reachable_in_fs; [done|]. by apply Hinv. Qed.


(** A module still to visit is a file outside the graph, so the graph
    has room for it. *)
Lemma inv_length_lt roots m rest g :
  trav_inv roots (m :: rest) g -> (forall r, r ∈ roots -> r ∈ fs) -> length g < size fs.
Proof.
  intros Hinv Hroots.
  enough (length (nodes g ++ [m]) <= size fs) by (unfold nodes in *; rewrite length_app,
    length_map in *; simpl in *; lia).
  apply NoDup_fs_length.
  - apply NoDup_app. split; [apply Hinv|]. split; [|apply NoDup_singleton].
    intros x Hx ->%list_elem_of_singleton. by apply (inv_fresh _ _ _ _ _ Hinv m); [left|].
  - intros p [Hp|Hp]%elem_of_app; [|apply list_elem_of_singleton in Hp as ->];
      apply (inv_in_fs roots (m :: rest) g); auto; by left; left.
Qed.

(** At the end of the traversal the graph holds exactly the reachable
    modules. *)
Lemma done_nodes roots g :
  trav_inv roots [] g -> forall m, m ∈ nodes g <-> reachable roots m.
Proof.
  intros [Hnd Hfr Hres Hcl Hsd Hrt] m. split; [intros; apply Hsd; by right|].
  intros (r & Hr & Hrm). destruct (Hrt r Hr) as [?%elem_of_nil|Hr']; [done|]. clear Hr.
  induction Hrm as [x|x y z Hxy _ IH]; [done|]. apply IH.
  apply elem_of_nodes in Hr' as [deps Hx].
  assert (Hy : y ∈ deps) by (by apply (resolve_imports_edge _ _ _ (Hres x deps Hx))).
  by destruct (Hcl x deps y Hx Hy) as [?%elem_of_nil|?].
Qed.

Lemma traverse_done roots n work g g' :
  trav_inv roots work g -> traverse n work g = Done g' -> trav_inv roots [] g'.
Proof.
  revert work g. induction n as [|n IH]; intros [|m rest] g Hinv H;
    try (injection H as <-; done); try discriminate H.
  rewrite traverse_S_cons in H. destruct (resolve_imports m) as [deps|e] eqn:Hr; [|discriminate H].
  exact (IH _ _ (visit_inv _ _ _ _ _ Hinv Hr) H).
Qed.

Lemma traverse_failed roots n work g e :
  trav_inv roots work g -> traverse n work g = Failed e ->
  exists m, reachable roots m /\ resolve_imports m = Err e.
Proof.
  revert work g. induction n as [|n IH]; intros [|m rest] g Hinv H; try discriminate H.
  rewrite traverse_S_cons in H. destruct (resolve_imports m) as [deps|e'] eqn:Hr.
  - exact (IH _ _ (visit_inv _ _ _ _ _ Hinv Hr) H).
  - injection H as ->. exists m. split; [|done]. apply Hinv. by left; left.
Qed.

(** Enough fuel: as much as there are files not yet in the graph. *)
Lemma traverse_fuel roots n work g :
  trav_inv roots work g -> (forall r, r ∈ roots -> r ∈ fs) -> size fs <= length g + n ->
  traverse n work g <> OutOfFuel.
Proof.
  revert work g. induction n as [|n IH]; intros [|m rest] g Hinv Hroots Hn; try discriminate.
  - pose proof (inv_length_lt _ _ _ _ Hinv Hroots). lia.
  - rewrite traverse_S_cons. destruct (resolve_imports m) as [deps|e] eqn:Hr; [|discriminate].
    apply IH; [by apply visit_inv|done|]. simpl. rewrite length_app. simpl. lia.
Qed.

(** More fuel does not change a result that is reached. *)
Lemma traverse_more_fuel n k work g :
  traverse n work g <> OutOfFuel -> traverse (n + k) work g = traverse n work g.
Proof.
  revert work g. induction n as [|n IH]; intros [|m rest] g H; try done; [by destruct k|].
  change (S n + k) with (S (n + k)). rewrite !traverse_S_cons. rewrite traverse_S_cons in H.
  destruct (resolve_imports m); [|done].
  by apply IH.
Qed.

Lemma resolve_roots_in entries roots :
  resolve_roots fs entries = Ok roots -> forall r, r ∈ roots -> r ∈ fs.
Proof.
  unfold resolve_roots. intros Hr%result_map_Ok r Hr'.
  destruct (Forall2_elem_of_r _ _ _ _ Hr Hr') as (e & _ & He). by eapply resolve_request_in.
Qed.

Lemma build_graph_total entries : build_graph fs imports entries <> OutOfFuel.
Proof.
  unfold build_graph. destruct (resolve_roots fs entries) as [roots|e] eqn:Hr; [|discriminate].
  apply (traverse_fuel roots); [apply init_inv|by eapply resolve_roots_in|simpl; lia].
Qed.

Lemma build_graph_Done entries g :
  build_graph fs imports entries = Done g ->
  exists roots, resolve_roots fs entries = Ok roots /\ trav_inv roots [] g.
Proof.
  unfold build_graph. destruct (resolve_roots fs entries) as [roots|e]; [|discriminate].
  intros H. exists roots. split; [done|]. exact (traverse_done _ _ _ _ _ (init_inv roots) H).
Qed.
(** An import of a reachable module that does not resolve fails the build. *)
Lemma unresolved_fails entries roots m s e :
  resolve_roots fs entries = Ok roots -> reachable roots m ->
  s ∈ imports m -> resolve_request fs m (js_dirname m) s = Err e ->
  exists e', build_graph fs imports entries = Failed e'.
Proof.
  intros Hr Hm Hs He. destruct (build_graph fs imports entries) as [g|e'|] eqn:Hb; [|by eauto|].
  - destruct (build_graph_Done _ _ Hb) as (roots' & Hr' & Hinv). rewrite Hr in Hr'.
    injection Hr' as <-. apply (done_nodes _ _ Hinv), elem_of_nodes in Hm as [deps Hmd].
    destruct (result_map_fails _ _ _ _ Hs He) as [e'' He''].
    pose proof (inv_resolved _ _ _ _ _ Hinv m deps Hmd) as Hok. unfold resolve_imports in Hok.
    congruence.
  - by destruct (build_graph_total entries).
Qed.

(** A module of a built graph has its imports resolved, and each resolved
    import is a module of the graph. *)
Lemma built_module_imports entries g m :
  build_graph fs imports entries = Done g -> m ∈ nodes g ->
  exists deps, resolve_imports m = Ok deps /\ forall p, p ∈ deps -> p ∈ nodes g.
Proof.
  intros Hb (deps & Hmd)%elem_of_nodes. destruct (build_graph_Done _ _ Hb) as (roots & _ & Hinv).
  exists deps. split; [by apply Hinv|]. intros p Hp.
  by destruct (inv_closed _ _ _ _ _ Hinv m deps p Hmd Hp) as [?%elem_of_nil|?].
Qed.
(** Every failure of the builder is an unresolved specifier. *)
Lemma build_graph_Failed entries e :
  build_graph fs imports entries = Failed e -> exists s i, e = UnresolvedSpecifier s i.
Proof.
  unfold build_graph. destruct (resolve_roots fs entries) as [roots|e'] eqn:Hr.
  - intros H. destruct (traverse_failed _ _ _ _ _ (init_inv roots) H) as (m & _ & Hi).
    apply result_map_Err in Hi as (s & _ & Hse). apply resolve_request_err in Hse. by eauto.
  - intros [= ->]. apply result_map_Err in Hr as ([name ep] & _ & He).
    apply resolve_request_err in He. by eauto.
Qed.
End Props.

(** ** Properties *)

Section Claims.
Variable fs : gset string.
Variable imports : string -> list string.

(** C8. The traversal terminates: with the fuel [size fs] the builder
    never runs out, and any larger fuel gives the same outcome. *)
Theorem build_graph_terminates entries :
  build_graph fs imports entries <> OutOfFuel /\
  forall roots n, resolve_roots fs entries = Ok roots -> size fs <= n ->
    traverse fs imports n roots [] = build_graph fs imports entries.
Proof.
  split; [apply build_graph_total|]. intros roots n Hr Hn.
  pose proof (build_graph_total fs imports entries) as Ht. unfold build_graph in *. rewrite Hr in *.
  replace n with (size fs + (n - size fs)) by lia. by apply traverse_more_fuel.
Qed.

(** C7. A built graph is the graph of the modules reachable from the
    entries: its modules are exactly those reachable through resolved
    imports from the resolved entry modules, and each is recorded with
    the resolution of its imports in source order. *)
Theorem build_graph_reachable entries g :
  build_graph fs imports entries = Done g ->
  exists roots, resolve_roots fs entries = Ok roots /\
    (forall m, m ∈ nodes g <-> reachable fs imports roots m) /\
    (forall m deps, (m, deps) ∈ g -> resolve_imports fs imports m = Ok deps).
Proof.
  intros (roots & Hr & Hinv)%build_graph_Done. exists roots. split; [done|].
  split; [by apply done_nodes|apply Hinv].
Qed.

(** C15. Cycle safety: every module appears once in a built graph, however
    the imports loop. *)
Theorem build_graph_once entries g :
  build_graph fs imports entries = Done g -> NoDup (nodes g).
Proof. intros (roots & _ & Hinv)%build_graph_Done. apply Hinv. Qed.


(** C16. A failed build reports [UnresolvedSpecifier] for an entry module
    that does not resolve, or for an import of a reachable module that
    does not resolve, naming that module. *)
Theorem build_graph_error entries e :
  build_graph fs imports entries = Failed e ->
  (exists name ep, (name, ep) ∈ entries /\ resolve_request fs name "" ep = Err e /\
     e = UnresolvedSpecifier ep name) \/
  (exists roots m s, resolve_roots fs entries = Ok roots /\ reachable fs imports roots m /\
     s ∈ imports m /\ resolve_request fs m (js_dirname m) s = Err e /\ e = UnresolvedSpecifier s m).
Proof.
  unfold build_graph. destruct (resolve_roots fs entries) as [roots|e'] eqn:Hr.
  - intros H. right. destruct (traverse_failed _ _ _ _ _ _ _ (init_inv _ _ roots) H)
      as (m & Hm & Hi). apply result_map_Err in Hi as (s & Hs & Hse).
    exists roots, m, s. do 4 (split; [done|]). by eapply resolve_request_err.
  - intros [= ->]. left. apply result_map_Err in Hr as ([name ep] & Hin & He).
    exists name, ep. do 2 (split; [done|]). by eapply resolve_request_err.
Qed.

(** C29. Conversely, an import of a reachable module that does not resolve
    always fails the build: the builder never returns a graph missing an
    edge. *)
Theorem build_graph_fails_on_unresolved entries roots m s e :
  resolve_roots fs entries = Ok roots -> reachable fs imports roots m ->
  s ∈ imports m -> resolve_request fs m (js_dirname m) s = Err e ->
  exists e', build_graph fs imports entries = Failed e'.
Proof. intros Hr Hm Hs He. by apply (unresolved_fails _ _ _ _ _ _ _ Hr Hm Hs He). Qed.

End Claims.

(** ** Witnesses: the cycle [a -> b -> a] of section 8 of the specification *)

Definition cycle_fs : gset string := {[ "bundle/a.js"; "bundle/b.js" ]}.

Definition cycle_imports (m : string) : list string :=
  if String.eqb m "bundle/a.js" then ["./b"]
  else if String.eqb m "bundle/b.js" then ["./a"] else [].

(** The same modules, where [b] also imports a missing [./c]. *)
Definition broken_imports (m : string) : list string :=
  if String.eqb m "bundle/b.js" then ["./a"; "./c"] else cycle_imports m.

Definition cycle_entries : obj string := [("a", "bundle/a")].

Definition cycle_graph : graph :=
  [("bundle/a.js", ["bundle/b.js"]); ("bundle/b.js", ["bundle/a.js"])].

(** Both modules of the cycle are visited, once each, with their
    resolved imports. *)
Example build_graph_cycle :
  build_graph cycle_fs cycle_imports cycle_entries = Done cycle_graph.
Proof. vm_compute. reflexivity. Qed.

Lemma build_graph_terminates_witness :
  build_graph cycle_fs cycle_imports cycle_entries <> OutOfFuel /\
  traverse cycle_fs cycle_imports 5 ["bundle/a.js"] [] =
  build_graph cycle_fs cycle_imports cycle_entries.
Proof.
  destruct (build_graph_terminates cycle_fs cycle_imports cycle_entries) as [H1 H2].
  split; [exact H1|]. apply H2; [vm_compute; reflexivity|vm_compute; lia].
Defined.

Lemma build_graph_reachable_witness :
  exists roots, resolve_roots cycle_fs cycle_entries = Ok roots /\
    (forall m, m ∈ nodes cycle_graph <-> reachable cycle_fs cycle_imports roots m) /\
    (forall m deps, (m, deps) ∈ cycle_graph -> resolve_imports cycle_fs cycle_imports m = Ok deps).
Proof. apply build_graph_reachable. vm_compute. reflexivity. Defined.

Lemma build_graph_once_witness : NoDup (nodes cycle_graph).
Proof. apply (build_graph_once cycle_fs cycle_imports cycle_entries). vm_compute. reflexivity. Defined.


Lemma build_graph_error_witness :
  (exists name ep, (name, ep) ∈ cycle_entries /\
     resolve_request cycle_fs name "" ep = Err (UnresolvedSpecifier "./c" "bundle/b.js") /\
     UnresolvedSpecifier "./c" "bundle/b.js" = UnresolvedSpecifier ep name) \/
  (exists roots m s, resolve_roots cycle_fs cycle_entries = Ok roots /\
     reachable cycle_fs broken_imports roots m /\ s ∈ broken_imports m /\
     resolve_request cycle_fs m (js_dirname m) s = Err (UnresolvedSpecifier "./c" "bundle/b.js") /\
     UnresolvedSpecifier "./c" "bundle/b.js" = UnresolvedSpecifier s m).
Proof. apply build_graph_error. vm_compute. reflexivity. Defined.

Lemma build_graph_fails_on_unresolved_witness :
  exists e', build_graph cycle_fs broken_imports cycle_entries = Failed e'.
Proof.
  apply (build_graph_fails_on_unresolved cycle_fs broken_imports cycle_entries ["bundle/a.js"]
           "bundle/b.js" "./c" (UnresolvedSpecifier "./c" "bundle/b.js")).
  - vm_compute. reflexivity.
  - exists "bundle/a.js". split; [by left|]. apply rtc_once. exists "./b".
    split; [by left|]. vm_compute. reflexivity.
  - vm_compute. by right; left.
  - vm_compute. reflexivity.
Defined.

End Graph.
