(* ===== verification/Provide.v ===== *)
(** * [webpack.ProvidePlugin] (lines 147-151)

    The plugin makes [$], [jQuery] and [window.jQuery] available in every
    module without an import: a module that uses one of these identifiers
    free gets an implicit import of ["jquery"], which [resolve.alias] turns
    into [vendor/jquery-2-1-0].  The implicit imports follow the module's
    own imports, in the plugin's key order.  Which identifiers a module
    uses free is given by the parser, here the parameter [free]. *)

From stdpp Require Import gmap relations.
From S2P Require Import Prelude JsString Alias Graph.
Import JsString Alias Graph.

Module Provide.

(** Lines 148-150, in declaration order. *)
Definition provide_table : list (string * string) :=
  [("$", "jquery"); ("jQuery", "jquery"); ("window.jQuery", "jquery")].

(** The specifiers the plugin adds to a module using the identifiers [ids]. *)
Definition provided (ids : list string) : list string :=
  omap (fun kv => if decide (kv.1 ∈ ids) then Some kv.2 else None) provide_table.

(** The imports webpack sees: the module's own, then the provided ones. *)
Definition module_imports (imports free : string -> list string) (m : string) : list string :=
  imports m ++ provided (free m).

(** ** Lemmas *)

Lemma elem_of_provided ids s :
  s ∈ provided ids <-> exists k, k ∈ ids /\ (k, s) ∈ provide_table.
Proof.
  unfold provided. rewrite list_elem_of_omap. split.
  - intros ([k v] & Hkv & Hs). simpl in Hs. case_decide; [|discriminate].
    injection Hs as ->. by exists k.
  - intros (k & Hk & Hkv). exists (k, s). split; [done|]. simpl. by case_decide.
Qed.

Lemma provided_jquery ids s : s ∈ provided ids -> s = "jquery".
Proof.
  intros (k & _ & Hkv)%elem_of_provided. unfold provide_table in Hkv.
  repeat (apply elem_of_cons in Hkv as [Hkv|Hkv]; [by injection Hkv|]).
  by apply elem_of_nil in Hkv.
Qed.

(** ** Properties *)

Section Claims.
Variable fs : gset string.
Variables imports free : string -> list string.

(** C23. Every module of a built graph that uses [$], [jQuery] or
    [window.jQuery] free has an edge to the module ["jquery"] resolves to
    from it, and that module is in the graph: the plugin's globals are
    always bundled. *)
Theorem provide_jquery_bundled entries g m k :
  build_graph fs (module_imports imports free) entries = Done g -> m ∈ nodes g ->
  k ∈ free m -> k ∈ map fst provide_table ->
  exists p, resolve_request fs m (js_dirname m) "jquery" = Ok p /\ p ∈ nodes g.
Proof.
  intros Hb Hm Hk Hkt. destruct (built_module_imports _ _ _ _ _ Hb Hm) as (deps & Hdeps & Hin).
  unfold resolve_imports in Hdeps. apply result_map_Ok in Hdeps.
  assert (Hs : "jquery" ∈ module_imports imports free m).
  { unfold module_imports. apply elem_of_app. right. apply elem_of_provided.
    exists k. split; [done|]. unfold provide_table in *. simpl in Hkt.
    by in_cases Hkt; [left|right; left|right; right; left]. }
  destruct (Forall2_elem_of_l _ _ _ _ Hdeps Hs) as (p & Hp & Hr). exists p. split; [done|].
  by apply Hin.
Qed.

End Claims.

(** ** Witnesses *)

(** A page module using [$], with jQuery under [vendor/]. *)
Definition page_fs : gset string := {[ "bundle/page.js"; "vendor/jquery-2-1-0.js" ]}.
Definition page_free (m : string) : list string := if String.eqb m "bundle/page.js" then ["$"] else [].
Definition page_entries : list (string * string) := [("page", "bundle/page")].

Lemma provide_jquery_bundled_witness :
  exists p, resolve_request page_fs "bundle/page.js" (js_dirname "bundle/page.js") "jquery" = Ok p /\
    p ∈ nodes [("bundle/page.js", ["vendor/jquery-2-1-0.js"]); ("vendor/jquery-2-1-0.js", [])].
Proof.
  apply (provide_jquery_bundled page_fs (fun _ => []) page_free page_entries _ _ "$").
  - vm_compute. reflexivity.
  - by left.
  - by left.
  - by left.
Defined.

End Provide.
