(* ===== verification/Bundle.v ===== *)
(** * The whole build, from the module sources to the files Play serves

    [compile] is one webpack run with this configuration, in the order of
    section 2 of the specification: for each entry of the entry map, the
    graph of its modules ([Graph], with the implicit imports of
    [Provide]), the transform of every module of the graph ([Loaders]),
    and the serialization of the transformed modules, in graph order, into
    the entry's chunk; then the emission of the chunks under the [output]
    templates ([Chunker]) and the emit hook ([Shim]).  [run] writes the
    assets into the output directory ([Writer]); a build that fails before
    writing leaves the directory as it was, as section 7 of the
    specification says (webpack itself, without [NoEmitOnErrorsPlugin],
    may emit stubs for failing modules).  [play_serve_dir] is Play's
    [AssetsFinder] reading that directory.

    The serialization of a chunk (webpack's module wrapping, with the ids
    of [HashedModuleIdsPlugin] and the [library] export of lines 116-117)
    only shapes the bytes of the chunk, and is the interface [Serializer].
    The configuration declares no shared chunk, so every chunk is an entry
    chunk.  The traversal of an entry is given [size fs] fuel; [run] is
    [None] only when it runs out, which [run_total] excludes. *)

From stdpp Require Import gmap relations.
From S2P Require Import Prelude JsString JsObject Shim Entries Chunker Pipeline Alias Loaders Graph Provide Writer.
Import JsString JsObject Shim Entries Chunker Pipeline Alias Loaders Graph Provide Writer.

Module Bundle.

(** Webpack's serialization of a chunk's transformed modules into its
    bytes and its source map. *)
Class Serializer := {
  serialize : list (string * string) -> string * string
}.

(** Play's lookup in the output directory. *)
Definition play_serve_dir (d : directory) (file : string) : option string :=
  d !! play_versioned_path (fun k => d !! k) file.

Section Compile.
Context `{ChunkHash} `{Transforms} `{Serializer}.

(** The files under [context], their sources, the specifiers each module
    imports and the identifiers it uses free. *)
Variable fs : gset string.
Variable read : string -> string.
Variables imports free : string -> list string.
(** The names the file system accepts. *)
Variable writable : string -> bool.

Definition transform_module (m : string) : result (string * string) :=
  let! out := transform m (read m) in Ok (m, out).

Definition chunk_of (name : string) (g : graph) : result chunk :=
  let! mods := result_map transform_module (nodes g) in
  Ok {| chunk_name := Some name;
        chunk_content := (serialize mods).1;
        chunk_sourcemap := (serialize mods).2 |}.

Definition compile_entry (entry : string * string) : option (result chunk) :=
  match build_graph fs (module_imports imports free) [entry] with
  | Done g => Some (chunk_of entry.1 g)
  | Failed e => Some (Err e)
  | OutOfFuel => None
  end.

Fixpoint compile_entries (entries : obj string) : option (result (list chunk)) :=
  match entries with
  | [] => Some (Ok [])
  | entry :: entries' =>
      match compile_entry entry with
      | None => None
      | Some (Err e) => Some (Err e)
      | Some (Ok c) =>
          match compile_entries entries' with
          | None => None
          | Some (Err e) => Some (Err e)
          | Some (Ok cs) => Some (Ok (c :: cs))
          end
      end
  end.

Definition compile (entries : obj string) : option (result (obj asset)) :=
  match compile_entries entries with
  | None => None
  | Some (Err e) => Some (Err e)
  | Some (Ok cs) => Some (let! assets := emit_assets cs in Ok (redirect_emit assets))
  end.

Definition run (prior : directory) (entries : obj string) : option (directory * result unit) :=
  match compile entries with
  | None => None
  | Some (Err e) => Some (prior, Err e)
  | Some (Ok out) => Some (output_writer writable prior out)
  end.

End Compile.

(** ** Lemmas *)

Lemma play_versioned_path_ext r1 r2 file :
  (forall k, r1 k = r2 k) -> play_versioned_path r1 file = play_versioned_path r2 file.
Proof. intros Hr. unfold play_versioned_path. by rewrite Hr. Qed.

(** Play reads the directory written from flat, distinct assets as it
    would read the assets. *)
Lemma play_serve_dir_written writable prior out d file :
  obj_wf out -> Forall (fun k => str_has "/" k = false) (obj_keys out) ->
  output_writer writable prior out = (d, Ok tt) ->
  play_serve_dir d file = source <$> play_serve out file.
Proof.
  intros Hwf Hflat Hw. pose proof (output_writer_get _ _ _ _ Hwf Hflat Hw) as Hd.
  unfold play_serve_dir, play_serve. rewrite (play_versioned_path_ext _ _ _ Hd). apply Hd.
Qed.

Section Props.
Context `{ChunkHash} `{Transforms} `{Serializer}.
Variable fs : gset string.
Variable read : string -> string.
Variables imports free : string -> list string.
Variable writable : string -> bool.

Abbreviation compile_entry := (compile_entry fs read imports free).
Abbreviation compile_entries := (compile_entries fs read imports free).
Abbreviation compile := (compile fs read imports free).
Abbreviation run := (run fs read imports free writable).
Abbreviation transform_module := (transform_module read).

(** The bundle a successful compilation gives an entry. *)
Definition entry_bundle (entry : string * string) : string * string :=
  match compile_entry entry with
  | Some (Ok c) => (chunk_content c, chunk_sourcemap c)
  | _ => ("", "")
  end.

Lemma compile_entry_total entry : compile_entry entry <> None.
Proof.
  unfold Bundle.compile_entry.
  pose proof (build_graph_total fs (module_imports imports free) [entry]).
  by destruct (build_graph _ _ _).
Qed.

Lemma compile_entries_total entries : compile_entries entries <> None.
Proof.
  induction entries as [|e es IH]; simpl; [done|].
  pose proof (compile_entry_total e). destruct (compile_entry e) as [[c|err]|]; [|done|done].
  by destruct (compile_entries es) as [[cs|err]|].
Qed.

Lemma compile_entry_Ok entry c :
  compile_entry entry = Some (Ok c) ->
  exists g mods, build_graph fs (module_imports imports free) [entry] = Done g /\
    result_map transform_module (nodes g) = Ok mods /\
    c = {| chunk_name := Some entry.1; chunk_content := (serialize mods).1;
           chunk_sourcemap := (serialize mods).2 |}.
Proof.
  unfold Bundle.compile_entry. destruct (build_graph _ _ _) as [g|e|]; [|done|done].
  unfold chunk_of. destruct (result_map _ _) as [mods|e] eqn:Hm; simpl; [|done].
  intros [= <-]. by exists g, mods.
Qed.

Lemma compile_entries_Ok entries cs :
  compile_entries entries = Some (Ok cs) ->
  Forall2 (fun e c => compile_entry e = Some (Ok c)) entries cs.
Proof.
  revert cs. induction entries as [|e es IH]; intros cs; simpl; [by intros [= <-]|].
  destruct (compile_entry e) as [[c|err]|] eqn:He; [|done|done].
  destruct (compile_entries es) as [[cs'|err]|]; [|done|done]. intros [= <-]. constructor; auto.
Qed.

(** The chunks of a successful compilation are the entry chunks of
    [Pipeline] for [entry_bundle]. *)
Lemma compile_entries_chunks entries cs :
  compile_entries entries = Some (Ok cs) -> cs = map (entry_chunk entry_bundle) entries.
Proof.
  intros Hcs%compile_entries_Ok. induction Hcs as [|e c es cs' Hc _ IH]; [done|]. simpl.
  rewrite IH. f_equal. unfold entry_chunk, entry_bundle. rewrite Hc.
  destruct (compile_entry_Ok _ _ Hc) as (g & mods & _ & _ & ->). done.
Qed.

Lemma compile_Ok entries out :
  compile entries = Some (Ok out) ->
  exists cs, compile_entries entries = Some (Ok cs) /\ emit_assets cs = Ok (obj_set_all (emitted_files cs) []) /\
    out = redirect_emit (obj_set_all (emitted_files cs) []).
Proof.
  unfold Bundle.compile. destruct (compile_entries entries) as [[cs|e]|]; [|done|done].
  destruct (emit_assets cs) as [assets|e] eqn:He; simpl; [|done]. intros [= <-].
  exists cs. pose proof (emit_assets_Ok_inv _ _ He) as ->. done.
Qed.




(** ** Properties *)

(** C1. End to end, through the file system: after a run over the
    entries of the source that writes its output, Play's lookup of
    [<entry name>.js] in the output directory serves the serialization of
    the entry's modules (those reachable from its module through its
    imports and the jQuery the [ProvidePlugin] injects), each transformed
    by its loaders, in graph order. *)
Theorem run_serves_every_entry prior d :
  run prior entryPointsMap = Some (d, Ok tt) ->
  forall ep, ep ∈ entryPoints ->
    exists g mods,
      build_graph fs (module_imports imports free) [(entry_name ep, entry_module ep)] = Done g /\
      result_map transform_module (nodes g) = Ok mods /\
      play_serve_dir d (entry_name ep +:+ ".js") = Some (serialize mods).1.
Proof.
  unfold Bundle.run. destruct (compile entryPointsMap) as [[out|e]|] eqn:Hc; [|done|done].
  intros [= Hw] ep Hep. destruct (compile_Ok _ _ Hc) as (cs & Hcs & _ & ->).
  assert (He : (entry_name ep, entry_module ep) ∈ entryPointsMap).
  { rewrite entryPointsMap_eq. apply list_elem_of_In, in_map_iff. exists ep.
    split; [done|]. by apply list_elem_of_In. }
  destruct (Forall2_elem_of_l _ _ _ _ (compile_entries_Ok _ _ Hcs) He) as (c & _ & Hc').
  destruct (compile_entry_Ok _ _ Hc') as (g & mods & Hg & Hm & Hcdef).
  exists g, mods. do 2 (split; [done|]).
  rewrite (compile_entries_chunks _ _ Hcs), <- (app_nil_r (map _ entryPointsMap)) in Hw.
  set (out := redirect_emit (obj_set_all (emitted_files (map (entry_chunk entry_bundle) entryPointsMap ++ [])) [])) in Hw.
  assert (Hwf : obj_wf out) by (unfold out; unfold_emit; repeat apply obj_set_all_wf; apply NoDup_nil_2).
  assert (Hfl : Forall (fun k => str_has "/" k = false) (obj_keys out)).
  { apply Forall_forall. intros k Hk. by apply (emitted_flat entry_bundle [] k); [constructor|]. }
  rewrite (play_serve_dir_written _ _ _ _ _ Hwf Hfl Hw). unfold out.
  rewrite emitted_serves; [|constructor|constructor|done].
  unfold entry_bundle. by rewrite Hc', Hcdef.
Qed.

(** The whole build terminates: [run] always has an outcome. *)
Theorem run_total prior entries : run prior entries <> None.
Proof.
  unfold Bundle.run, Bundle.compile. pose proof (compile_entries_total entries).
  destruct (compile_entries entries) as [[cs|e]|]; [|done|done].
  simpl. by destruct (emit_assets cs).
Qed.


End Props.

(** ** Witnesses: the fifteen entries of the source, one file each *)

Definition sample_fs : gset string :=
  list_to_set (map (fun ep => entry_module ep +:+ ".js") entryPoints).

(** Modules concatenated; a constant source map. *)
#[export] Instance concat_serializer : Serializer := {|
  serialize mods := (foldr (fun m acc => m.2 +:+ acc) "" mods, "map")
|}.

Definition sample_run : option (directory * result unit) :=
  run sample_fs (fun m => m) (fun _ => []) (fun _ => []) (fun _ => true) ∅ entryPointsMap.

Definition sample_dir : directory := from_option fst ∅ sample_run.

Lemma sample_run_ok : match sample_run with Some (_, Ok _) => True | _ => False end.
Proof. vm_compute. exact I. Qed.

Lemma run_serves_every_entry_witness :
  exists g mods,
    build_graph sample_fs (module_imports (fun _ => []) (fun _ => []))
      [(entry_name "Welcome/show", entry_module "Welcome/show")] = Done g /\
    result_map (transform_module (fun m => m)) (nodes g) = Ok mods /\
    play_serve_dir sample_dir (entry_name "Welcome/show" +:+ ".js") = Some (serialize mods).1.
Proof.
  apply (run_serves_every_entry sample_fs (fun m => m) (fun _ => []) (fun _ => []) (fun _ => true)
           ∅ sample_dir).
  - pose proof sample_run_ok as Hok. unfold sample_dir. fold sample_run.
    destruct sample_run as [[d [[]|e]]|]; [reflexivity|done|done].
  - by_decide.
Defined.


End Bundle.
